(** * Life Goals dashboard: the state logic of [App.tsx]

    A shallow embedding of the goal repository of
    [life-goals-dashboard/src/App.tsx]: the [Goal] record, the persistence
    adapter ([loadGoals], [saveGoals]), the theme hook ([useTheme]), the
    derived view ([filteredGoals]), the summary ([Stats]), the motivation
    panel ([QuoteCard]), the creation and edit form
    ([GoalForm.handleSubmit]), the cards and the mutation handlers of the
    [App] component, followed by the properties of the specification and
    by further properties of the code.

    Conventions.
    - A React state cell is a field of [AppState]; [setX] is a field update.
      [setGoals] takes the updater function, as in the source.
    - A [useRef] cell is a field too ([undoTimerRef], [lastToggledRef]).
    - [window.setTimeout]/[window.clearTimeout] are modelled by a list of
      pending timeouts, a counter of timer ids and a monotonic clock.
    - [Date.now()] and [uuidv4()] are read from the environment: their
      results are arguments of the handlers.
    - Code that can throw returns an [outcome].
    - Integral JS numbers ([steps], [completedSteps], time stamps) are [Z];
      the numeric form input, which may be fractional or [NaN], is a
      [number] over [Q].  Adding and subtracting 1 in [Z] is the
      arithmetic of doubles on the safe integers (below 2^53 in size);
      the properties that depend on an exact step say so. *)

From Stdlib Require Import ZArith QArith Qround Qabs Lia Lqa.
From stdpp Require Import gmap strings list sorting fin_maps.

Local Open Scope Z_scope.

(** ** Outcomes of code that may throw *)

Inductive outcome (A : Type) : Type :=
  | Returns (a : A)
  | Throws (e : string).
Arguments Returns {A} a.
Arguments Throws {A} e.

Definition obind {A B} (m : outcome A) (k : A -> outcome B) : outcome B :=
  match m with
  | Returns a => k a
  | Throws e => Throws e
  end.

(** [try { body } catch { handler }] *)
Definition try_catch {A} (body : outcome A) (handler : string -> outcome A)
  : outcome A :=
  match body with
  | Returns a => Returns a
  | Throws e => handler e
  end.

Notation "'let!' x ':=' m 'in' k" := (obind m (fun x => k))
  (at level 10, x name, m at level 100, k at level 200).

(** ** Data model *)

Inductive Priority := Low | Medium | High.

#[global] Instance Priority_eq_dec : EqDecision Priority.
Proof. solve_decision. Defined.

Record Goal := mkGoal {
  id : string;
  title : string;
  description : string;
  deadline : string;
  priority : Priority;
  steps : Z;
  completedSteps : Z;
  completed : bool;
  createdAt : Z;
  completedAt : option Z
}.

#[global] Instance Goal_eq_dec : EqDecision Goal.
Proof. solve_decision. Defined.

Inductive FilterKey := FilterAll | FilterActive | FilterCompleted.

Inductive SortKey :=
  | CreatedDesc | DeadlineAsc | DeadlineDesc | PriorityDesc | PriorityAsc.

(** [{ ...goal, completedSteps: n }] *)
Definition with_completedSteps (goal : Goal) (n : Z) : Goal :=
  {| id := id goal; title := title goal; description := description goal;
     deadline := deadline goal; priority := priority goal;
     steps := steps goal; completedSteps := n;
     completed := completed goal; createdAt := createdAt goal;
     completedAt := completedAt goal |}.

(** [{ ...goal, completed: c, completedAt: at }] *)
Definition with_completion (goal : Goal) (c : bool) (at_ : option Z) : Goal :=
  {| id := id goal; title := title goal; description := description goal;
     deadline := deadline goal; priority := priority goal;
     steps := steps goal; completedSteps := completedSteps goal;
     completed := c; createdAt := createdAt goal;
     completedAt := at_ |}.

(** The invariant of the data model on the step counter. *)
Definition steps_ok (g : Goal) : Prop :=
  0 <= completedSteps g /\ completedSteps g <= steps g.

(** ** JS numbers of the form's step input *)

Inductive number :=
  | NaN
  | Num (q : Q).

(** [x || d] on numbers: [NaN] and [0] are falsy. *)
Definition or_default (x : number) (d : Q) : Q :=
  match x with
  | NaN => d
  | Num q => if Qeq_bool q 0 then d else q
  end.

(** [Math.round]: the closest integer, ties towards +infinity. *)
Definition Math_round (q : Q) : Z := Qfloor (q + (1 # 2)).

(** [Math.max(1, Math.round(Number(steps) || 1))] *)
Definition coerce_steps (stepsInput : number) : Z :=
  Z.max 1 (Math_round (or_default stepsInput 1)).

(** [priorityOrder] *)
Definition priorityOrder (p : Priority) : Z :=
  match p with
  | High => 3
  | Medium => 2
  | Low => 1
  end.

(** ** The creation and edit form *)

Module GoalForm.

(** The state cells of the form, as the user has left them on submit. *)
Record State := mkState {
  title : string;
  description : string;
  deadline : string;
  priority : Priority;
  steps : number
}.

(** The initial values of the state cells: those of [initial] when it is
    given, else the defaults.  [defaultDeadline] is today plus seven days,
    as computed by the environment. *)
Definition init (initial : option Goal) (defaultDeadline : string) : State :=
  match initial with
  | Some (mkGoal _ t d dl p s _ _ _ _) =>
      {| title := t; description := d;
         deadline := if decide (dl = "") then defaultDeadline else dl;
         priority := p; steps := Num (inject_Z s) |}
  | None =>
      {| title := ""; description := ""; deadline := defaultDeadline;
         priority := Medium; steps := Num 1 |}
  end.

(** The inputs of the form write their state cell. *)
Definition setTitle (v : string) (form : State) : State :=
  mkState v (description form) (deadline form) (priority form) (steps form).

Definition setDescription (v : string) (form : State) : State :=
  mkState (title form) v (deadline form) (priority form) (steps form).


Definition setPriority (v : Priority) (form : State) : State :=
  mkState (title form) (description form) (deadline form) v (steps form).

Definition setSteps (v : number) (form : State) : State :=
  mkState (title form) (description form) (deadline form) (priority form) v.

(** [Boolean(initial && initial.id)]: the empty id is falsy. *)
Definition isEditing (initial : option Goal) : bool :=
  match initial with
  | Some g => negb (bool_decide (id g = ""))
  | None => false
  end.

Section Submit.
(** [String.prototype.trim] and [new Date(s).toISOString()], which
    throws a [RangeError] on an invalid date. *)
Variable trim : string -> string.
Variable Date_toISOString : string -> outcome string.

(** The record that [handleSubmit] hands to [onSave]. *)
Definition handleSubmit (initial : option Goal) (form : State)
    (uuid : string) (now : Z) : outcome Goal :=
  let! iso := Date_toISOString (deadline form) in
  Returns (mkGoal
    (match initial with
     | Some g => if isEditing initial then id g else uuid
     | None => uuid
     end)
    (trim (title form))
    (trim (description form))
    iso
    (priority form)
    (coerce_steps (steps form))
    (match initial with Some g => completedSteps g | None => 0 end)
    (match initial with Some g => completed g | None => false end)
    (match initial with
     | Some g => if isEditing initial then createdAt g else now
     | None => now
     end)
    (match initial with Some g => completedAt g | None => None end)).
End Submit.

End GoalForm.

(** ** Application state *)

Record AppState := mkApp {
  goals : list Goal;
  isModalOpen : bool;
  editing : option Goal;
  undoOpen : bool;
  undoTimerRef : option nat;
  lastToggledRef : option Goal;
  (* the browser's timers *)
  timers : list (nat * Z);
  nextTimerId : nat;
  clock : Z
}.

Definition setGoals (f : list Goal -> list Goal) (st : AppState) : AppState :=
  mkApp (f (goals st)) (isModalOpen st) (editing st) (undoOpen st)
        (undoTimerRef st) (lastToggledRef st)
        (timers st) (nextTimerId st) (clock st).

Definition setIsModalOpen (b : bool) (st : AppState) : AppState :=
  mkApp (goals st) b (editing st) (undoOpen st)
        (undoTimerRef st) (lastToggledRef st)
        (timers st) (nextTimerId st) (clock st).

Definition setEditing (e : option Goal) (st : AppState) : AppState :=
  mkApp (goals st) (isModalOpen st) e (undoOpen st)
        (undoTimerRef st) (lastToggledRef st)
        (timers st) (nextTimerId st) (clock st).

Definition setUndoOpen (b : bool) (st : AppState) : AppState :=
  mkApp (goals st) (isModalOpen st) (editing st) b
        (undoTimerRef st) (lastToggledRef st)
        (timers st) (nextTimerId st) (clock st).

Definition set_undoTimerRef (r : option nat) (st : AppState) : AppState :=
  mkApp (goals st) (isModalOpen st) (editing st) (undoOpen st)
        r (lastToggledRef st)
        (timers st) (nextTimerId st) (clock st).

Definition set_lastToggledRef (r : option Goal) (st : AppState) : AppState :=
  mkApp (goals st) (isModalOpen st) (editing st) (undoOpen st)
        (undoTimerRef st) r
        (timers st) (nextTimerId st) (clock st).

(** *** Timers

    Every timeout that the application registers runs the same callback,
    [() => setUndoOpen(false)], so a pending timeout is its id and the
    clock value at which it fires. *)

Definition window_setTimeout (delay : Z) (st : AppState) : nat * AppState :=
  (nextTimerId st,
   mkApp (goals st) (isModalOpen st) (editing st) (undoOpen st)
         (undoTimerRef st) (lastToggledRef st)
         ((nextTimerId st, clock st + delay) :: timers st)
         (S (nextTimerId st)) (clock st)).

Definition window_clearTimeout (t : nat) (st : AppState) : AppState :=
  mkApp (goals st) (isModalOpen st) (editing st) (undoOpen st)
        (undoTimerRef st) (lastToggledRef st)
        (filter (fun p => fst p <> t) (timers st))
        (nextTimerId st) (clock st).

(** [if (undoTimerRef.current) window.clearTimeout(undoTimerRef.current)]:
    the id 0 is falsy. *)
Definition clear_undo_timer (st : AppState) : AppState :=
  match undoTimerRef st with
  | Some t => if Nat.eqb t 0 then st else window_clearTimeout t st
  | None => st
  end.

(** Time passes: the clock moves by [dt] and the timeouts that are due run
    their callback. *)
Definition advance (dt : Z) (st : AppState) : AppState :=
  let now := clock st + dt in
  let fired := filter (fun p => snd p <= now) (timers st) in
  let pending := filter (fun p => ~ snd p <= now) (timers st) in
  mkApp (goals st) (isModalOpen st) (editing st)
        (match fired with [] => undoOpen st | _ :: _ => false end)
        (undoTimerRef st) (lastToggledRef st)
        pending (nextTimerId st) now.

(** ** Mutation handlers of [App] *)

(** [prev.map(g => (g.id === target.id ? replacement : g))] *)
Definition replace_by_id (target replacement : Goal) (prev : list Goal)
  : list Goal :=
  (fun g => if decide (id g = id target) then replacement else g) <$> prev.

Definition handleAddNew (st : AppState) : AppState :=
  setIsModalOpen true (setEditing None st).

Definition handleSave (goal : Goal) (st : AppState) : AppState :=
  let st := setGoals (fun prev =>
    let exists_ := existsb (fun g => bool_decide (id g = id goal)) prev in
    if exists_ then replace_by_id goal goal prev
    else goal :: prev) st in
  let st := setIsModalOpen false st in
  setEditing None st.

Definition handleEdit (goal : Goal) (st : AppState) : AppState :=
  setIsModalOpen true (setEditing (Some goal) st).

(** [ok] is the answer of [window.confirm]. *)
Definition handleDelete (ok : bool) (goal : Goal) (st : AppState) : AppState :=
  if negb ok then st
  else setGoals (fun prev => filter (fun g => id g <> id goal) prev) st.

Definition handleToggleComplete (now : Z) (goal : Goal) (st : AppState)
  : AppState :=
  let updated :=
    with_completion goal (negb (completed goal))
      (if negb (completed goal) then Some now else None) in
  let st := setGoals (replace_by_id goal updated) st in
  let st := set_lastToggledRef (Some goal) st in
  let st := setUndoOpen true st in
  let st := clear_undo_timer st in
  let '(t, st) := window_setTimeout 5000 st in
  set_undoTimerRef (Some t) st.

Definition handleUndo (st : AppState) : AppState :=
  match lastToggledRef st with
  | None => st
  | Some last =>
      let st := setGoals (replace_by_id last last) st in
      let st := setUndoOpen false st in
      let st := set_lastToggledRef None st in
      clear_undo_timer st
  end.

(** The two step handlers add and subtract 1 in [Z]: that is the
    source's arithmetic on the safe integers (below 2^53 in size); on
    larger doubles the source rounds. *)
Definition handleIncrementStep (goal : Goal) (st : AppState) : AppState :=
  if completed goal then st
  else if completedSteps goal >=? steps goal then st
  else
    let updated := with_completedSteps goal (completedSteps goal + 1) in
    setGoals (replace_by_id goal updated) st.

Definition handleDecrementStep (goal : Goal) (st : AppState) : AppState :=
  if completed goal then st
  else if completedSteps goal <=? 0 then st
  else
    let updated := with_completedSteps goal (completedSteps goal - 1) in
    setGoals (replace_by_id goal updated) st.

(** *** Wiring of the presentation layer *)

(** [Toast]: the undo button, and with it its click handler, is rendered
    only while [open] holds. *)
Definition Toast (open : bool) (onUndo : AppState -> AppState)
  : option (AppState -> AppState) :=
  if open then Some onUndo else None.

(** A click on the undo button of [<Toast open={undoOpen} onUndo={handleUndo}/>]:
    without a button nothing happens. *)
Definition click_undo (st : AppState) : AppState :=
  match Toast (undoOpen st) handleUndo with
  | Some onUndo => onUndo st
  | None => st
  end.

Section FormWiring.
Variable trim : string -> string.
Variable Date_toISOString : string -> outcome string.

(** Submitting [<GoalForm initial={editing ?? undefined} onSave={handleSave}/>]:
    when [handleSubmit] throws, [onSave] is not reached. *)
Definition submit_form (form : GoalForm.State) (uuid : string) (now : Z)
    (st : AppState) : AppState :=
  match GoalForm.handleSubmit trim Date_toISOString (editing st) form uuid now with
  | Returns base => handleSave base st
  | Throws _ => st
  end.
End FormWiring.


(** The initial state of [App] over the loaded repository; the browser
    hands out timer ids from 1. *)
Definition initial_state (loaded : list Goal) : AppState :=
  mkApp loaded false None false None None [] 1 0.

(** What can happen to the application. *)
Inductive Event :=
  | ClickAddGoal
  | ClickEdit (goal : Goal)
  | SubmitForm (form : GoalForm.State) (uuid : string) (now : Z)
  | ClickDelete (ok : bool) (goal : Goal)
  | ClickToggle (now : Z) (goal : Goal)
  | ClickUndo
  | ClickIncrement (goal : Goal)
  | ClickDecrement (goal : Goal)
  | Wait (dt : Z).

Section Events.
Variable trim : string -> string.
Variable Date_toISOString : string -> outcome string.

Definition dispatch (e : Event) (st : AppState) : AppState :=
  match e with
  | ClickAddGoal => handleAddNew st
  | ClickEdit goal => handleEdit goal st
  | SubmitForm form uuid now =>
      submit_form trim Date_toISOString form uuid now st
  | ClickDelete ok goal => handleDelete ok goal st
  | ClickToggle now goal => handleToggleComplete now goal st
  | ClickUndo => click_undo st
  | ClickIncrement goal => handleIncrementStep goal st
  | ClickDecrement goal => handleDecrementStep goal st
  | Wait dt => advance dt st
  end.

Definition run (events : list Event) (st : AppState) : AppState :=
  foldl (fun st e => dispatch e st) st events.
End Events.

(** ** Persistence adapter *)

(** The values of [JSON.parse]. *)
#[warnings="-register-all"]
Inductive json :=
  | JNull
  | JBool (b : bool)
  | JNumber (n : Q)
  | JString (s : string)
  | JArray (elems : list json)
  | JObject (fields : list (string * json)).

(** [localStorage]: reading it throws when the browser denies access. *)
Record Storage := mkStorage {
  accessible : bool;
  items : gmap string string
}.

Definition STORAGE_KEY : string := "life_goals_v1".

Definition localStorage_getItem (localStorage : Storage) (key : string)
  : outcome (option string) :=
  if accessible localStorage then Returns (items localStorage !! key)
  else Throws "SecurityError".

Definition Array_isArray (v : json) : bool :=
  match v with
  | JArray _ => true
  | _ => false
  end.

(** The elements of a parsed value that is an array. *)
Definition elements (v : json) : list json :=
  match v with
  | JArray elems => elems
  | _ => []
  end.

Section Persistence.
(** [JSON.parse], which throws a [SyntaxError] on text that is not JSON. *)
Variable JSON_parse : string -> outcome json.

(** [loadGoals].  The cast [as Goal[]] checks nothing: the result is the
    parsed array as it is. *)
Definition loadGoals (localStorage : Storage) : outcome (list json) :=
  try_catch
    (let! raw := localStorage_getItem localStorage STORAGE_KEY in
     match raw with
     | None => Returns []
     | Some raw =>
         if decide (raw = "") then Returns []
         else
           let! parsed := JSON_parse raw in
           Returns (if Array_isArray parsed then elements parsed else [])
     end)
    (fun _ => Returns []).
End Persistence.

(** ** Derived view *)

(** [Array.prototype.sort] with a comparator: the sort is stable, so for a
    consistent comparator its result is the one of insertion from the
    right, where an element stays in front of those it does not exceed.
    For a comparator that is not consistent (an invalid date next to
    valid ones under a deadline key) the order that the engine leaves
    depends on its algorithm; what is proved of the order below is
    proved for consistent comparators, and only the permutation is used
    otherwise. *)
Fixpoint sort_insert (cmp : Goal -> Goal -> Z) (x : Goal) (l : list Goal)
  : list Goal :=
  match l with
  | [] => [x]
  | y :: l' => if cmp x y <=? 0 then x :: l else y :: sort_insert cmp x l'
  end.

Definition sorted_copy (cmp : Goal -> Goal -> Z) (l : list Goal) : list Goal :=
  foldr (sort_insert cmp) [] l.

(** Arrays live in a store: [goals] is shared with the repository, and
    [sort] writes into the array it is called on. *)
Definition M (A : Type) : Type :=
  gmap nat (list Goal) -> option (A * gmap nat (list Goal)).

Definition ret {A} (a : A) : M A := fun h => Some (a, h).

Definition bind {A B} (m : M A) (k : A -> M B) : M B :=
  fun h => match m h with
           | Some (a, h') => k a h'
           | None => None
           end.

Notation "x <~ m ;; k" := (bind m (fun x => k))
  (at level 100, m at next level, right associativity).

Definition read (r : nat) : M (list Goal) :=
  fun h => match h !! r with
           | Some l => Some (l, h)
           | None => None
           end.

Definition alloc (l : list Goal) : M nat :=
  fun h => let r := fresh (dom h) in Some (r, <[r := l]> h).

Definition write (r : nat) (l : list Goal) : M unit :=
  fun h => Some (tt, <[r := l]> h).

(** [[...a]] *)
Definition Array_spread (a : nat) : M nat :=
  l <~ read a ;; alloc l.

(** [a.filter(p)] *)
Definition Array_filter (p : Goal -> bool) (a : nat) : M nat :=
  l <~ read a ;; alloc (List.filter p l).

(** [a.sort(cmp)] *)
Definition Array_sort (cmp : Goal -> Goal -> Z) (a : nat) : M nat :=
  l <~ read a ;; _ <~ write a (sorted_copy cmp l) ;; ret a.

Section DerivedView.
(** [parseISO(s).getTime()]; [None] is the [NaN] of an invalid date. *)
Variable parseISO_getTime : string -> option Z.

(** A difference of two times; [sort] reads a [NaN] as 0. *)
Definition time_diff (a b : string) : Z :=
  match parseISO_getTime a, parseISO_getTime b with
  | Some ta, Some tb => ta - tb
  | _, _ => 0
  end.

Definition comparator (sortBy : SortKey) (a b : Goal) : Z :=
  match sortBy with
  | DeadlineAsc => time_diff (deadline a) (deadline b)
  | DeadlineDesc => time_diff (deadline b) (deadline a)
  | PriorityDesc => priorityOrder (priority b) - priorityOrder (priority a)
  | PriorityAsc => priorityOrder (priority a) - priorityOrder (priority b)
  | CreatedDesc => createdAt b - createdAt a
  end.

(** The body of the [useMemo] that computes [filteredGoals]. *)
Definition filteredGoals (goals : nat) (filter : FilterKey) (sortBy : SortKey)
  : M nat :=
  list <~ Array_spread goals ;;
  list <~ match filter with
          | FilterActive => Array_filter (fun g => negb (completed g)) list
          | _ => ret list
          end ;;
  list <~ match filter with
          | FilterCompleted => Array_filter (fun g => completed g) list
          | _ => ret list
          end ;;
  list <~ Array_sort (comparator sortBy) list ;;
  ret list.
End DerivedView.

(** ** Writing to the storage *)

Section StorageWrites.
(** Whether the store has room for an entry: the browser's quota check. *)
Variable accepts : Storage -> string -> string -> bool.
(** [JSON.stringify] on the values of the repository. *)
Variable JSON_stringify : json -> string.

(** [localStorage.setItem]: throws when access is denied and when the
    quota is exceeded. *)
Definition localStorage_setItem (localStorage : Storage) (key value : string)
  : outcome Storage :=
  if accessible localStorage then
    if accepts localStorage key value
    then Returns (mkStorage true (<[key := value]> (items localStorage)))
    else Throws "QuotaExceededError"
  else Throws "SecurityError".

(** The name of a priority, as the union type spells it. *)
Definition priority_name (p : Priority) : string :=
  match p with
  | Low => "Low"
  | Medium => "Medium"
  | High => "High"
  end.

(** A goal as [JSON.stringify] walks it: the properties in the order in
    which [handleSubmit] writes them, without [completedAt] when it is
    [undefined]. *)
Definition to_json (g : Goal) : json :=
  JObject
    ([("id", JString (id g)); ("title", JString (title g));
      ("description", JString (description g));
      ("deadline", JString (deadline g));
      ("priority", JString (priority_name (priority g)));
      ("steps", JNumber (inject_Z (steps g)));
      ("completedSteps", JNumber (inject_Z (completedSteps g)));
      ("completed", JBool (completed g));
      ("createdAt", JNumber (inject_Z (createdAt g)))]
     ++ match completedAt g with
        | Some t => [("completedAt", JNumber (inject_Z t))]
        | None => []
        end).

(** [saveGoals]: the storage after the call; an error of [setItem] is
    swallowed. *)
Definition saveGoals (goals : list Goal) (localStorage : Storage)
  : outcome Storage :=
  try_catch
    (localStorage_setItem localStorage STORAGE_KEY
       (JSON_stringify (JArray (to_json <$> goals))))
    (fun _ => Returns localStorage).
End StorageWrites.

(** ** Theme *)

Module useTheme.

Inductive Theme := light | dark.

Definition THEME_KEY : string := "theme".

Definition name (theme : Theme) : string :=
  match theme with
  | light => "light"
  | dark => "dark"
  end.

(** What the hook sees of the browser: the storage and the class list of
    the document element. *)
Record Browser := mkBrowser {
  localStorage : Storage;
  classList : gset string
}.

(** The [try] block of the initialiser: the stored theme when it is one of
    the two names. *)
Definition stored_theme (b : Browser) : outcome (option Theme) :=
  let! stored := localStorage_getItem (localStorage b) THEME_KEY in
  Returns (match stored with
           | Some s =>
               if decide (s = "light") then Some light
               else if decide (s = "dark") then Some dark
               else None
           | None => None
           end).

(** The initial state; [window] is undefined when there is no browser. *)
Definition initial (browser : option Browser) : Theme :=
  match browser with
  | None => light
  | Some b =>
      match try_catch (stored_theme b) (fun _ => Returns None) with
      | Returns (Some stored) => stored
      | _ => if decide ("dark" ∈ classList b) then dark else light
      end
  end.

Section Effect.
Variable accepts : Storage -> string -> string -> bool.

(** The effect on [theme]: the class is toggled to the theme, then the
    theme is stored, an error of [setItem] being swallowed. *)
Definition effect (theme : Theme) (b : Browser) : Browser :=
  let classes :=
    match theme with
    | dark => classList b ∪ {["dark"]}
    | light => classList b ∖ {["dark"]}
    end in
  match localStorage_setItem accepts (localStorage b) THEME_KEY (name theme) with
  | Returns stored => mkBrowser stored classes
  | Throws _ => mkBrowser (localStorage b) classes
  end.
End Effect.

Definition toggle (t : Theme) : Theme :=
  match t with
  | dark => light
  | light => dark
  end.

End useTheme.

(** ** Summary statistics *)

(** The three numbers that [Stats] shows. *)
Record StatsView := mkStats {
  total : Z;
  completed_goals : Z;
  pending : Z
}.

Definition Stats (goals : list Goal) : StatsView :=
  let total := Z.of_nat (length goals) in
  let completed := Z.of_nat (length (List.filter (fun g => completed g) goals)) in
  let pending := total - completed in
  mkStats total completed pending.

(** ** The motivation panel *)

Module QuoteCard.

Definition quotes : list string :=
  [ "The secret of getting ahead is getting started. — Mark Twain";
    "It always seems impossible until it’s done. — Nelson Mandela";
    "Well begun is half done. — Aristotle";
    "Dream big. Start small. Act now.";
    "Action is the foundational key to all success. — Pablo Picasso";
    "Small progress is still progress.";
    "Your future is created by what you do today, not tomorrow. — Robert Kiyosaki";
    "You don’t have to be great to start, but you have to start to be great. — Zig Ziglar" ].

(** [Math.floor(Math.random() * quotes.length)]; the product with a power
    of two is exact on doubles. *)
Definition initial (random : Q) : Z :=
  Qfloor (random * inject_Z (Z.of_nat (length quotes))).

(** The interval's callback: [i => (i + 1) % quotes.length]. *)
Definition tick (i : Z) : Z := (i + 1) mod Z.of_nat (length quotes).

(** [quotes[idx]] *)
Definition shown (idx : Z) : option string :=
  if idx <? 0 then None else quotes !! Z.to_nat idx.

End QuoteCard.

(** ** Goal cards *)

(** The goals that pass the filter of the view. *)
Definition passes (filter : FilterKey) (g : Goal) : bool :=
  match filter with
  | FilterAll => true
  | FilterActive => negb (completed g)
  | FilterCompleted => completed g
  end.

(** [showProgress]: the bar and the step buttons are rendered for goals
    with more than one step. *)
Definition showProgress (goal : Goal) : bool := 1 <? steps goal.

(** The goal of the card with key [key]: the record of that id in the
    repository, when the filter lets it through. *)
Definition card (filter : FilterKey) (key : string) (st : AppState)
  : option Goal :=
  List.find (fun g => bool_decide (id g = key) && passes filter g) (goals st).

(** Clicks on the buttons of the card with key [key]; without the card, or
    without the button, nothing happens. *)
Definition click_step_forward (filter : FilterKey) (key : string)
    (st : AppState) : AppState :=
  match card filter key st with
  | Some goal => if showProgress goal then handleIncrementStep goal st else st
  | None => st
  end.

Definition click_step_back (filter : FilterKey) (key : string)
    (st : AppState) : AppState :=
  match card filter key st with
  | Some goal => if showProgress goal then handleDecrementStep goal st else st
  | None => st
  end.

Definition click_checkbox (filter : FilterKey) (key : string) (now : Z)
    (st : AppState) : AppState :=
  match card filter key st with
  | Some goal => handleToggleComplete now goal st
  | None => st
  end.

(** ** Events that the page offers *)

(** The cards show records of the repository, the step buttons need
    [showProgress], the form is there while the modal is open, and time
    does not run backwards. *)
Definition enabled (e : Event) (st : AppState) : Prop :=
  match e with
  | ClickEdit goal | ClickDelete _ goal | ClickToggle _ goal => goal ∈ goals st
  | ClickIncrement goal | ClickDecrement goal =>
      goal ∈ goals st /\ showProgress goal = true
  | SubmitForm _ _ _ => isModalOpen st = true
  | Wait dt => 0 <= dt
  | ClickAddGoal | ClickUndo => True
  end.

Section EnabledRuns.
Variable trim : string -> string.
Variable Date_toISOString : string -> outcome string.

(** Every event of the run is offered in the state it happens in, and
    meets [ok] there. *)
Fixpoint offered (ok : Event -> AppState -> Prop) (events : list Event)
    (st : AppState) : Prop :=
  match events with
  | [] => True
  | e :: events =>
      enabled e st /\ ok e st /\
      offered ok events (dispatch trim Date_toISOString e st)
  end.
End EnabledRuns.

(** An edit that does not put the step count below the progress of the
    goal under edit. *)
Definition keeps_progress (e : Event) (st : AppState) : Prop :=
  match e, editing st with
  | SubmitForm form _ _, Some g =>
      completedSteps g <= coerce_steps (GoalForm.steps form)
  | _, _ => True
  end.

(** ** Predicates of the properties *)

(** The integers on which adding and subtracting 1 is exact on doubles
    ([Number.isSafeInteger]).  The step handlers add and subtract in [Z];
    they are the source's handlers on these counters. *)
Definition safe_integer (n : Z) : Prop := - 2 ^ 53 < n < 2 ^ 53.

(** Two records that differ at most in [completedSteps]. *)
Definition same_except_completedSteps (g g' : Goal) : Prop :=
  id g' = id g /\ title g' = title g /\ description g' = description g /\
  deadline g' = deadline g /\ priority g' = priority g /\
  steps g' = steps g /\ completed g' = completed g /\
  createdAt g' = createdAt g /\ completedAt g' = completedAt g.

(** Two states that differ at most in the repository. *)
Definition same_except_goals (st st' : AppState) : Prop :=
  isModalOpen st' = isModalOpen st /\ editing st' = editing st /\
  undoOpen st' = undoOpen st /\ undoTimerRef st' = undoTimerRef st /\
  lastToggledRef st' = lastToggledRef st /\ timers st' = timers st /\
  nextTimerId st' = nextTimerId st /\ clock st' = clock st.

(** Two states that differ at most in what the undo slot remembers, and
    not even in that while the notification is open. *)
Definition same_but_slot (st st' : AppState) : Prop :=
  goals st' = goals st /\ isModalOpen st' = isModalOpen st /\
  editing st' = editing st /\ undoOpen st' = undoOpen st /\
  undoTimerRef st' = undoTimerRef st /\ timers st' = timers st /\
  nextTimerId st' = nextTimerId st /\ clock st' = clock st /\
  (undoOpen st = true -> lastToggledRef st' = lastToggledRef st).

(** The order that a sort key asks for; two deadlines are compared when
    both parse. *)
Definition in_order (parseISO_getTime : string -> option Z) (sortBy : SortKey)
    (a b : Goal) : Prop :=
  match sortBy with
  | CreatedDesc => createdAt b <= createdAt a
  | DeadlineAsc =>
      forall ta tb, parseISO_getTime (deadline a) = Some ta ->
                    parseISO_getTime (deadline b) = Some tb -> ta <= tb
  | DeadlineDesc =>
      forall ta tb, parseISO_getTime (deadline a) = Some ta ->
                    parseISO_getTime (deadline b) = Some tb -> tb <= ta
  | PriorityDesc => priorityOrder (priority b) <= priorityOrder (priority a)
  | PriorityAsc => priorityOrder (priority a) <= priorityOrder (priority b)
  end.

(** The value that a sort key compares; [None] is an invalid date. *)
Definition sort_value (parseISO_getTime : string -> option Z) (sortBy : SortKey)
    (g : Goal) : option Z :=
  match sortBy with
  | CreatedDesc => Some (createdAt g)
  | DeadlineAsc | DeadlineDesc => parseISO_getTime (deadline g)
  | PriorityDesc | PriorityAsc => Some (priorityOrder (priority g))
  end.

(** For the deadline keys the comparator is consistent on goals whose
    deadline parses; the other keys need nothing. *)
Definition comparable (parseISO_getTime : string -> option Z) (sortBy : SortKey)
    (gs : list Goal) : Prop :=
  match sortBy with
  | DeadlineAsc | DeadlineDesc =>
      forall g, g ∈ gs -> is_Some (parseISO_getTime (deadline g))
  | _ => True
  end.


(** The records keep their places and their ids, and a record whose id is
    not [target] is the same before and after. *)
Definition frame_by_id (target : string) (before after : list Goal) : Prop :=
  length after = length before /\
  forall (i : nat) g, before !! i = Some g ->
    exists g', after !! i = Some g' /\ id g' = id g /\ (id g <> target -> g' = g).

(** The records whose id is not [target], in their order. *)
Definition others (target : string) (l : list Goal) : list Goal :=
  filter (fun g => id g <> target) l.

(** The pending timeouts of a state of the application: at most the one
    that [undoTimerRef] names, and timer ids are positive. *)
Definition timers_ok (st : AppState) : Prop :=
  nextTimerId st <> 0%nat /\
  forall p, p ∈ timers st -> undoTimerRef st = Some (fst p) /\ fst p <> 0%nat.

(** The bound holds in a state: for the records of the repository and for
    the record that the undo slot remembers. *)
Definition steps_inv (st : AppState) : Prop :=
  Forall steps_ok (goals st) /\
  forall last, lastToggledRef st = Some last -> steps_ok last.

(** The bound, also for the goal that the form was opened on. *)
Definition steps_inv_editing (st : AppState) : Prop :=
  steps_inv st /\ forall g, editing st = Some g -> steps_ok g.

(** At most one timeout is pending, it is due within five seconds, and an
    open notification has its timeout. *)
Definition countdown_ok (st : AppState) : Prop :=
  timers_ok st /\
  (length (timers st) <= 1)%nat /\
  (forall p, p ∈ timers st -> clock st < snd p <= clock st + 5000) /\
  (undoOpen st = true -> timers st <> []).

(** The parser with the invalid dates put at 0: with it every comparator
    is consistent. *)
Definition parse_or_zero (parseISO_getTime : string -> option Z) (s : string)
  : option Z :=
  Some (default 0 (parseISO_getTime s)).

(** What the derived view is measured against. *)

(** [a] may stand in front of [b] for the comparator. *)
Definition goes_before (cmp : Goal -> Goal -> Z) (a b : Goal) : Prop :=
  cmp a b <= 0.

(** From high to low priority. *)
Definition priority_ge (a b : Goal) : Prop :=
  priorityOrder (priority b) <= priorityOrder (priority a).

(** The goals of one priority, in their order. *)
Definition with_priority (p : Priority) (l : list Goal) : list Goal :=
  filter (fun g => priority g = p) l.

(** ** Sample data *)

Definition sample_goal : Goal :=
  mkGoal "g1" "Run a marathon" "" "2026-06-01T00:00:00.000Z" High 4 4 false 1000 None.

Definition sample_done : Goal :=
  mkGoal "g2" "Read a book" "" "2026-03-01T00:00:00.000Z" Low 1 0 true 900 (Some 950).

Definition sample_state : AppState :=
  initial_state [sample_goal; sample_done].

Definition sample_low : Goal :=
  mkGoal "g4" "Tidy the desk" "" "2026-02-01T00:00:00.000Z" Low 1 0 true 800 (Some 850).

Definition sample_high : Goal :=
  mkGoal "g5" "File the taxes" "" "2026-04-01T00:00:00.000Z" High 3 3 true 700 (Some 990).

Definition sample_medium : Goal :=
  mkGoal "g6" "Call the bank" "" "2026-05-01T00:00:00.000Z" Medium 1 0 true 600 (Some 650).

(** A repository in the store, at address 0. *)
Definition sample_repository : list Goal :=
  [sample_low; sample_goal; sample_high; sample_medium; sample_done].

Definition sample_store : gmap nat (list Goal) := {[ 0%nat := sample_repository ]}.

(** A storage whose entry is not JSON. *)
Definition sample_storage : Storage :=
  mkStorage true {[ STORAGE_KEY := "not json" ]}.

(** Stand-ins for the collaborators, enough to run the handlers: a [trim]
    that finds nothing to strip, a date constructor that rejects the empty
    text only, and a parser that knows the empty array only. *)
Definition sample_trim (s : string) : string := s.

Definition sample_toISOString (s : string) : outcome string :=
  if decide (s = "") then Throws "RangeError" else Returns s.

Definition sample_parse (s : string) : outcome json :=
  if decide (s = "[]") then Returns (JArray []) else Throws "SyntaxError".

(** The form of [sample_goal] with the step count lowered to 2. *)
Definition sample_edit : GoalForm.State :=
  GoalForm.setSteps (Num 2)
    (GoalForm.init (Some sample_goal) "2026-01-08").

(** A new form with a title and a step count of -3. *)
Definition sample_new : GoalForm.State :=
  GoalForm.setSteps (Num (-3))
    (GoalForm.setTitle "Learn to swim" (GoalForm.init None "2026-01-08")).


(** A goal under way and a board with it. *)
Definition sample_started : Goal :=
  mkGoal "g7" "Write a paper" "" "2026-07-01T00:00:00.000Z" Medium 4 1 false 500 None.

Definition sample_board : AppState :=
  initial_state [sample_started; sample_done].

(** The form of [sample_goal] with the step count raised to 5. *)
Definition sample_raise : GoalForm.State :=
  GoalForm.setSteps (Num 5)
    (GoalForm.init (Some sample_goal) "2026-01-08").

(** A store with room, a serialiser that writes one text, a parser that
    reads it back as the goals of [sample_state], and a clock that takes
    the length of the text for the time. *)
Definition sample_accepts (_ : Storage) (_ _ : string) : bool := true.

Definition sample_stringify (_ : json) : string := "saved".

Definition sample_parse_saved (s : string) : outcome json :=
  if decide (s = "saved") then Returns (JArray (to_json <$> goals sample_state))
  else Throws "SyntaxError".

Definition sample_getTime (s : string) : option Z :=
  Some (Z.of_nat (String.length s)).

(** * Properties *)

(** ** Replacement by id *)

Lemma replace_by_id_length target r l :
  length (replace_by_id target r l) = length l.
Proof. unfold replace_by_id. apply length_fmap. Qed.

Lemma replace_by_id_lookup target r l (i : nat) :
  replace_by_id target r l !! i =
  (fun g => if decide (id g = id target) then r else g) <$> (l !! i).
Proof. unfold replace_by_id. apply list_lookup_fmap. Qed.

Lemma replace_by_id_ids target r l :
  id r = id target -> id <$> replace_by_id target r l = id <$> l.
Proof.
  intros Hid. unfold replace_by_id. induction l as [|g l IH]; simpl; [done|].
  f_equal; [|exact IH]. destruct (decide (id g = id target)); congruence.
Qed.

Lemma replace_by_id_twice target r r' l :
  id r = id target ->
  replace_by_id target r' (replace_by_id target r l) = replace_by_id target r' l.
Proof.
  intros Hid. unfold replace_by_id. rewrite <- list_fmap_compose.
  apply list_fmap_ext. intros _ g _. simpl.
  destruct (decide (id g = id target)) as [Heq|Hne].
  - rewrite decide_True by exact Hid. done.
  - rewrite decide_False by exact Hne. done.
Qed.

Lemma unique_id_eq (l : list Goal) g x :
  NoDup (id <$> l) -> g ∈ l -> x ∈ l -> id x = id g -> x = g.
Proof.
  induction l as [|y l IH]; intros Hnd Hg Hx Hid.
  - inversion Hg.
  - rewrite fmap_cons in Hnd. apply NoDup_cons in Hnd as [Hy Hnd].
    apply elem_of_cons in Hg as [->|Hg]; apply elem_of_cons in Hx as [->|Hx].
    + done.
    + exfalso. apply Hy. rewrite <- Hid. apply list_elem_of_fmap. eauto.
    + exfalso. apply Hy. rewrite Hid. apply list_elem_of_fmap. eauto.
    + eauto.
Qed.

Lemma replace_by_id_self (l : list Goal) g :
  NoDup (id <$> l) -> g ∈ l -> replace_by_id g g l = l.
Proof.
  intros Hnd Hg. unfold replace_by_id.
  rewrite <- (list_fmap_id l) at 2. apply list_fmap_ext.
  intros i x Hx. simpl. destruct (decide (id x = id g)) as [Heq|]; [|done].
  symmetry. eapply unique_id_eq; eauto. eapply list_elem_of_lookup_2; eauto.
Qed.

Lemma replace_by_id_absent target r (l : list Goal) :
  (forall g, g ∈ l -> id g <> id target) -> replace_by_id target r l = l.
Proof.
  intros Hno. unfold replace_by_id.
  rewrite <- (list_fmap_id l) at 2. apply list_fmap_ext.
  intros i x Hx. simpl. rewrite decide_False; [done|].
  apply Hno. eapply list_elem_of_lookup_2; eauto.
Qed.

Lemma replace_by_id_elem target r (l : list Goal) :
  target ∈ l -> r ∈ replace_by_id target r l.
Proof.
  intros Hin. unfold replace_by_id. apply list_elem_of_fmap.
  exists target. rewrite decide_True by done. done.
Qed.

Lemma frame_by_id_refl target l : frame_by_id target l l.
Proof. split; [done|]. intros i g Hg. exists g. done. Qed.

Lemma replace_by_id_frame target r l :
  id r = id target -> frame_by_id (id target) l (replace_by_id target r l).
Proof.
  intros Hid. split; [apply replace_by_id_length|].
  intros i g Hg. rewrite replace_by_id_lookup, Hg. simpl.
  destruct (decide (id g = id target)) as [Heq|Hne].
  - exists r. split; [done|]. split; [congruence|]. intros Hne. done.
  - exists g. done.
Qed.

(** ** What the handlers do to the repository *)

Lemma goals_clear_undo_timer st : goals (clear_undo_timer st) = goals st.
Proof.
  unfold clear_undo_timer. destruct (undoTimerRef st) as [[|t]|]; reflexivity.
Qed.

Lemma goals_handleToggleComplete now goal st :
  goals (handleToggleComplete now goal st) =
  replace_by_id goal
    (with_completion goal (negb (completed goal))
       (if negb (completed goal) then Some now else None))
    (goals st).
Proof.
  unfold handleToggleComplete. simpl. rewrite goals_clear_undo_timer. reflexivity.
Qed.

Lemma goals_handleUndo st :
  goals (handleUndo st) =
  match lastToggledRef st with
  | Some last => replace_by_id last last (goals st)
  | None => goals st
  end.
Proof.
  unfold handleUndo. destruct (lastToggledRef st) as [last|]; [|reflexivity].
  rewrite goals_clear_undo_timer. reflexivity.
Qed.

Lemma goals_handleSave goal st :
  goals (handleSave goal st) =
  if existsb (fun g => bool_decide (id g = id goal)) (goals st)
  then replace_by_id goal goal (goals st)
  else goal :: goals st.
Proof. reflexivity. Qed.

Lemma existsb_id_true (l : list Goal) (i : string) :
  existsb (fun g => bool_decide (id g = i)) l = true <->
  exists g, g ∈ l /\ id g = i.
Proof.
  rewrite existsb_exists. split.
  - intros (g & Hin & Hb). exists g. split.
    + by apply list_elem_of_In.
    + by apply bool_decide_eq_true in Hb.
  - intros (g & Hin & Hid). exists g. split.
    + by apply list_elem_of_In.
    + by apply bool_decide_eq_true.
Qed.

Lemma existsb_id_false (l : list Goal) (i : string) :
  existsb (fun g => bool_decide (id g = i)) l = false <->
  forall g, g ∈ l -> id g <> i.
Proof.
  split.
  - intros Hf g Hin Hid.
    assert (existsb (fun g => bool_decide (id g = i)) l = true) as Ht
      by (apply existsb_id_true; eauto).
    congruence.
  - intros Hno. apply not_true_is_false. intros E.
    apply existsb_id_true in E as (g & Hin & Hid). exact (Hno g Hin Hid).
Qed.

Lemma NoDup_ids_replace target r l :
  id r = id target -> NoDup (id <$> l) ->
  NoDup (id <$> replace_by_id target r l).
Proof. intros Hid Hnd. by rewrite replace_by_id_ids. Qed.

Lemma NoDup_ids_handleSave goal st :
  NoDup (id <$> goals st) -> NoDup (id <$> goals (handleSave goal st)).
Proof.
  intros Hnd. rewrite goals_handleSave.
  destruct (existsb _ (goals st)) eqn:E.
  - by apply NoDup_ids_replace.
  - rewrite fmap_cons. apply NoDup_cons. split; [|done].
    intros Hin. apply list_elem_of_fmap in Hin as (g & Hid & Hg).
    eapply existsb_id_false in E; [|exact Hg]. congruence.
Qed.

(** C5. Toggling completion replaces the record of the goal by one whose
    [completed] flag is flipped; [completedAt] becomes the current time
    when the flag goes from false to true and is cleared when it goes from
    true to false; the other fields are those of the goal. *)
Theorem toggle_flips_completed (now : Z) (goal : Goal) (st : AppState) :
  exists updated,
    goals (handleToggleComplete now goal st)
      = replace_by_id goal updated (goals st) /\
    completed updated = negb (completed goal) /\
    completedAt updated = (if completed goal then None else Some now) /\
    id updated = id goal /\ title updated = title goal /\
    description updated = description goal /\
    deadline updated = deadline goal /\ priority updated = priority goal /\
    steps updated = steps goal /\
    completedSteps updated = completedSteps goal /\
    createdAt updated = createdAt goal /\
    (forall i : nat, goals st !! i = Some goal ->
       goals (handleToggleComplete now goal st) !! i = Some updated).
Proof.
  eexists. rewrite goals_handleToggleComplete. split; [reflexivity|].
  simpl. destruct (completed goal); repeat (split; [reflexivity|]).
  - intros i Hi. rewrite replace_by_id_lookup, Hi. simpl.
    by rewrite decide_True.
  - intros i Hi. rewrite replace_by_id_lookup, Hi. simpl.
    by rewrite decide_True.
Qed.

Lemma toggle_flips_completed_witness :
  exists updated,
    goals (handleToggleComplete 2000 sample_goal sample_state) !! 0%nat
      = Some updated /\
    completed updated = true /\ completedAt updated = Some 2000.
Proof.
  destruct (toggle_flips_completed 2000 sample_goal sample_state)
    as (updated & Hgoals & Hc & Hat & _ & _ & _ & _ & _ & _ & _ & _ & Hi).
  exists updated. split; [|split; [exact Hc|exact Hat]].
  apply Hi. reflexivity.
Defined.

Lemma same_except_completedSteps_with goal n :
  same_except_completedSteps goal (with_completedSteps goal n).
Proof. repeat split. Qed.

Lemma same_except_goals_setGoals f st : same_except_goals st (setGoals f st).
Proof. repeat split. Qed.

(** C6 as the code has it.  The guards are inequalities: increment does
    nothing when the goal is completed or [completedSteps >= steps],
    decrement does nothing when the goal is completed or
    [completedSteps <= 0]; the state is then the one from before.
    Otherwise, for a counter that is a safe integer, every record of the
    goal's id is replaced by the goal with [completedSteps] one more (one
    less) and the other fields as they are, the record at the goal's place
    among them, and nothing but the repository changes. *)
Theorem step_buttons_guarded (goal : Goal) (st : AppState) :
  safe_integer (completedSteps goal) ->
  (if completed goal || (completedSteps goal >=? steps goal)
   then handleIncrementStep goal st = st
   else exists updated,
     goals (handleIncrementStep goal st)
       = (fun g => if decide (id g = id goal) then updated else g) <$> goals st /\
     completedSteps updated = completedSteps goal + 1 /\
     same_except_completedSteps goal updated /\
     (forall i : nat, goals st !! i = Some goal ->
        goals (handleIncrementStep goal st) !! i = Some updated) /\
     same_except_goals st (handleIncrementStep goal st)) /\
  (if completed goal || (completedSteps goal <=? 0)
   then handleDecrementStep goal st = st
   else exists updated,
     goals (handleDecrementStep goal st)
       = (fun g => if decide (id g = id goal) then updated else g) <$> goals st /\
     completedSteps updated = completedSteps goal - 1 /\
     same_except_completedSteps goal updated /\
     (forall i : nat, goals st !! i = Some goal ->
        goals (handleDecrementStep goal st) !! i = Some updated) /\
     same_except_goals st (handleDecrementStep goal st)).
Proof.
  intros _. unfold handleIncrementStep, handleDecrementStep. split.
  - destruct (completed goal); [done|].
    destruct (completedSteps goal >=? steps goal); [done|]. cbn [orb].
    exists (with_completedSteps goal (completedSteps goal + 1)).
    split; [reflexivity|]. split; [reflexivity|].
    split; [apply same_except_completedSteps_with|].
    split; [|apply same_except_goals_setGoals].
    intros i Hi. cbn [goals setGoals].
    rewrite replace_by_id_lookup, Hi. simpl. by rewrite decide_True.
  - destruct (completed goal); [done|].
    destruct (completedSteps goal <=? 0); [done|]. cbn [orb].
    exists (with_completedSteps goal (completedSteps goal - 1)).
    split; [reflexivity|]. split; [reflexivity|].
    split; [apply same_except_completedSteps_with|].
    split; [|apply same_except_goals_setGoals].
    intros i Hi. cbn [goals setGoals].
    rewrite replace_by_id_lookup, Hi. simpl. by rewrite decide_True.
Qed.

Lemma step_buttons_guarded_witness :
  exists updated,
    goals (handleIncrementStep sample_started sample_board)
      = [updated; sample_done] /\
    completedSteps updated = 2 /\ steps updated = 4 /\ id updated = "g7".
Proof.
  assert (safe_integer (completedSteps sample_started)) as Hsafe
    by (unfold safe_integer; simpl; lia).
  destruct (proj1 (step_buttons_guarded sample_started sample_board Hsafe))
    as (updated & Hgoals & Hcs & Hsame & _).
  exists updated. split; [exact Hgoals|]. split; [exact Hcs|].
  destruct Hsame as (Hid & _ & _ & _ & _ & Hsteps & _).
  split; [exact Hsteps|exact Hid].
Defined.

(** C6 as the specification words it fails on a record beyond its step
    count, which the edit form leaves behind: the goal is not completed
    and its counter does not equal [steps], yet increment changes
    nothing. *)
Lemma increment_beyond_steps_does_nothing :
  let st := run sample_trim sample_toISOString
              [ClickEdit sample_goal; SubmitForm sample_edit "g3" 2000]
              sample_state in
  let beyond := mkGoal "g1" "Run a marathon" "" "2026-06-01T00:00:00.000Z"
                  High 2 4 false 1000 None in
  goals st = [beyond; sample_done] /\
  enabled (ClickIncrement beyond) st /\
  completed beyond = false /\ completedSteps beyond <> steps beyond /\
  safe_integer (completedSteps beyond) /\
  handleIncrementStep beyond st = st /\
  goals (run sample_trim sample_toISOString [ClickIncrement beyond] st)
    = goals st.
Proof.
  cbv zeta.
  assert (goals (run sample_trim sample_toISOString
                   [ClickEdit sample_goal; SubmitForm sample_edit "g3" 2000]
                   sample_state)
          = [mkGoal "g1" "Run a marathon" "" "2026-06-01T00:00:00.000Z"
               High 2 4 false 1000 None; sample_done]) as Hgoals
    by (vm_compute; reflexivity).
  split; [exact Hgoals|]. split.
  { unfold enabled. rewrite Hgoals. split; [left|reflexivity]. }
  split; [reflexivity|].
  split; [simpl; lia|]. split; [unfold safe_integer; simpl; lia|].
  split; vm_compute; reflexivity.
Qed.

Lemma others_replace_by_id target r l :
  id r = id target ->
  others (id target) (replace_by_id target r l) = others (id target) l.
Proof.
  intros Hid. unfold others, replace_by_id.
  induction l as [|g l IH]; [done|].
  rewrite fmap_cons. destruct (decide (id g = id target)) as [Heq|Hne].
  - rewrite !filter_cons_False by (intros H; apply H; congruence). exact IH.
  - rewrite !filter_cons_True by done. by rewrite IH.
Qed.

Lemma goals_handleIncrementStep_frame goal st :
  frame_by_id (id goal) (goals st) (goals (handleIncrementStep goal st)) /\
  others (id goal) (goals (handleIncrementStep goal st))
    = others (id goal) (goals st).
Proof.
  unfold handleIncrementStep.
  destruct (completed goal); [split; [apply frame_by_id_refl|done]|].
  destruct (_ >=? _); [split; [apply frame_by_id_refl|done]|].
  split; [by apply replace_by_id_frame|by apply others_replace_by_id].
Qed.

Lemma goals_handleDecrementStep_frame goal st :
  frame_by_id (id goal) (goals st) (goals (handleDecrementStep goal st)) /\
  others (id goal) (goals (handleDecrementStep goal st))
    = others (id goal) (goals st).
Proof.
  unfold handleDecrementStep.
  destruct (completed goal); [split; [apply frame_by_id_refl|done]|].
  destruct (_ <=? _); [split; [apply frame_by_id_refl|done]|].
  split; [by apply replace_by_id_frame|by apply others_replace_by_id].
Qed.

(** C10. Update, toggle, undo, increment and decrement keep every record in
    its place with its id and leave the records of another id as they
    were (an update whose id is not in the repository puts its record in
    front of the unchanged list); delete keeps, in their order, exactly
    the records of another id. *)
Theorem mutations_frame :
  (forall base st,
     others (id base) (goals (handleSave base st)) = others (id base) (goals st) /\
     if existsb (fun g => bool_decide (id g = id base)) (goals st)
     then frame_by_id (id base) (goals st) (goals (handleSave base st))
     else goals (handleSave base st) = base :: goals st) /\
  (forall now goal st,
     frame_by_id (id goal) (goals st) (goals (handleToggleComplete now goal st)) /\
     others (id goal) (goals (handleToggleComplete now goal st))
       = others (id goal) (goals st)) /\
  (forall st,
     match lastToggledRef st with
     | Some last =>
         frame_by_id (id last) (goals st) (goals (handleUndo st)) /\
         others (id last) (goals (handleUndo st)) = others (id last) (goals st)
     | None => goals (handleUndo st) = goals st
     end) /\
  (forall goal st,
     frame_by_id (id goal) (goals st) (goals (handleIncrementStep goal st)) /\
     others (id goal) (goals (handleIncrementStep goal st))
       = others (id goal) (goals st)) /\
  (forall goal st,
     frame_by_id (id goal) (goals st) (goals (handleDecrementStep goal st)) /\
     others (id goal) (goals (handleDecrementStep goal st))
       = others (id goal) (goals st)) /\
  (forall ok goal st,
     goals (handleDelete ok goal st)
       = (if ok then others (id goal) (goals st) else goals st) /\
     sublist (goals (handleDelete ok goal st)) (goals st) /\
     forall g, g ∈ goals (handleDelete true goal st) <->
               g ∈ goals st /\ id g <> id goal).
Proof.
  split; [|split; [|split; [|split; [|split]]]].
  - intros base st. rewrite goals_handleSave.
    destruct (existsb _ (goals st)) eqn:E.
    + split; [by apply others_replace_by_id|by apply replace_by_id_frame].
    + split; [|done]. unfold others. by rewrite filter_cons_False by tauto.
  - intros now goal st. rewrite goals_handleToggleComplete.
    split; [by apply replace_by_id_frame|by apply others_replace_by_id].
  - intros st. rewrite goals_handleUndo.
    destruct (lastToggledRef st) as [last|]; [|done].
    split; [by apply replace_by_id_frame|by apply others_replace_by_id].
  - apply goals_handleIncrementStep_frame.
  - apply goals_handleDecrementStep_frame.
  - intros ok goal st. unfold handleDelete, others.
    split; [by destruct ok|]. split.
    + destruct ok; simpl; [apply sublist_filter|done].
    + intros g. simpl. rewrite list_elem_of_filter. tauto.
Qed.

(** ** The undo window *)

Lemma filter_none {A} (P : A -> Prop) `{forall x, Decision (P x)} (l : list A) :
  (forall x, x ∈ l -> ~ P x) -> filter P l = [].
Proof.
  induction l as [|x l IH]; intros Hno; [done|].
  rewrite filter_cons_False by (apply Hno; left).
  apply IH. intros y Hy. apply Hno. by right.
Qed.

Lemma timers_ok_filter_ref st t :
  timers_ok st -> undoTimerRef st = Some t ->
  filter (fun p : nat * Z => fst p <> t) (timers st) = [].
Proof.
  intros [_ Hok] Href. apply filter_none.
  intros p Hp Hne. apply Hne.
  destruct (Hok p Hp) as [Hp' _]. congruence.
Qed.

Lemma timers_ok_no_ref st :
  timers_ok st -> undoTimerRef st = None -> timers st = [].
Proof.
  intros [_ Hok] Href. destruct (timers st) as [|p l] eqn:E; [done|].
  destruct (Hok p) as [Hp _]; [left|]. congruence.
Qed.

Lemma timers_ok_zero_ref st :
  timers_ok st -> undoTimerRef st = Some 0%nat -> timers st = [].
Proof.
  intros [_ Hok] Href. destruct (timers st) as [|p l] eqn:E; [done|].
  destruct (Hok p) as [Hp Hnz]; [left|]. congruence.
Qed.

(** The state after a toggle, field by field. *)
Lemma handleToggleComplete_state now goal st :
  timers_ok st ->
  handleToggleComplete now goal st =
  mkApp
    (replace_by_id goal
       (with_completion goal (negb (completed goal))
          (if negb (completed goal) then Some now else None))
       (goals st))
    (isModalOpen st) (editing st) true
    (Some (nextTimerId st)) (Some goal)
    [(nextTimerId st, clock st + 5000)] (S (nextTimerId st)) (clock st).
Proof.
  intros Hok. unfold handleToggleComplete, clear_undo_timer. simpl.
  destruct (undoTimerRef st) as [[|t]|] eqn:Href; simpl.
  - rewrite (timers_ok_zero_ref st Hok Href). reflexivity.
  - rewrite (timers_ok_filter_ref st (S t) Hok Href). reflexivity.
  - rewrite (timers_ok_no_ref st Hok Href). reflexivity.
Qed.

Lemma timers_ok_handleToggleComplete now goal st :
  timers_ok st -> timers_ok (handleToggleComplete now goal st).
Proof.
  intros Hok. rewrite handleToggleComplete_state by done.
  destruct Hok as [Hn _]. split; simpl; [done|].
  intros p Hp. apply list_elem_of_singleton in Hp as ->. done.
Qed.

(** Before a pending timeout is due, time changes the clock only. *)
Lemma advance_before_due dt st t due :
  timers st = [(t, due)] -> clock st + dt < due ->
  advance dt st =
  mkApp (goals st) (isModalOpen st) (editing st) (undoOpen st)
        (undoTimerRef st) (lastToggledRef st)
        [(t, due)] (nextTimerId st) (clock st + dt).
Proof.
  intros Ht Hlt. unfold advance. rewrite Ht.
  rewrite filter_cons_False by (simpl; lia).
  rewrite filter_cons_True by (simpl; lia).
  rewrite !filter_nil. reflexivity.
Qed.

(** Once it is due, its callback closes the notification. *)
Lemma advance_due dt st t due :
  timers st = [(t, due)] -> due <= clock st + dt ->
  advance dt st =
  mkApp (goals st) (isModalOpen st) (editing st) false
        (undoTimerRef st) (lastToggledRef st)
        [] (nextTimerId st) (clock st + dt).
Proof.
  intros Ht Hle. unfold advance. rewrite Ht.
  rewrite filter_cons_True by (simpl; lia).
  rewrite filter_cons_False by (simpl; lia).
  rewrite !filter_nil. reflexivity.
Qed.

Lemma sample_state_timers_ok : timers_ok sample_state.
Proof. split; simpl; [lia|]. intros p Hp. inversion Hp. Qed.

Lemma sample_state_ids : NoDup (id <$> goals sample_state).
Proof.
  simpl. apply NoDup_cons. split.
  - intros H. apply list_elem_of_singleton in H. discriminate.
  - apply NoDup_singleton.
Qed.

(** [handleUndo] in a state whose undo slot is armed. *)
Lemma handleUndo_armed gs m e o t last due n c :
  t <> 0%nat ->
  handleUndo (mkApp gs m e o (Some t) (Some last) [(t, due)] n c) =
  mkApp (replace_by_id last last gs) m e false (Some t) None [] n c.
Proof.
  intros Ht. unfold handleUndo, clear_undo_timer. simpl.
  destruct t as [|t]; [done|]. simpl.
  unfold window_clearTimeout. simpl.
  rewrite filter_cons_False by (simpl; tauto). reflexivity.
Qed.

Lemma click_undo_open st : undoOpen st = true -> click_undo st = handleUndo st.
Proof. intros H. unfold click_undo, Toast. by rewrite H. Qed.

Lemma click_undo_closed st : undoOpen st = false -> click_undo st = st.
Proof. intros H. unfold click_undo, Toast. by rewrite H. Qed.

(** C4. Within the five seconds after a toggle of a goal of the repository
    the undo button is there; a click on it gives back the repository as
    it was before the toggle (so the record of the goal with every field,
    [completedAt] included), cancels the timeout, closes the notification
    and empties the slot.  A second toggle before the timeout overwrites
    the slot and restarts the single timeout: an undo then restores the
    second target only. *)
Theorem undo_within_window (st : AppState) (now : Z) (goal : Goal) (dt : Z) :
  timers_ok st -> goal ∈ goals st -> NoDup (id <$> goals st) ->
  0 <= dt < 5000 ->
  let toggled := advance dt (handleToggleComplete now goal st) in
  Toast (undoOpen toggled) handleUndo = Some handleUndo /\
  goals (click_undo toggled) = goals st /\
  goal ∈ goals (click_undo toggled) /\
  timers toggled = [(nextTimerId st, clock st + 5000)] /\
  timers (click_undo toggled) = [] /\
  undoOpen (click_undo toggled) = false /\
  lastToggledRef (click_undo toggled) = None /\
  forall now' goal',
    let again := handleToggleComplete now' goal' toggled in
    lastToggledRef again = Some goal' /\
    timers again = [(S (nextTimerId st), clock st + dt + 5000)] /\
    goals (click_undo again) = replace_by_id goal' goal' (goals toggled) /\
    lastToggledRef (click_undo again) = None.
Proof.
  intros Hok Hin Hnd Hdt toggled.
  assert (nextTimerId st <> 0%nat) as Hn by apply Hok.
  assert (toggled =
    mkApp
      (replace_by_id goal
         (with_completion goal (negb (completed goal))
            (if negb (completed goal) then Some now else None))
         (goals st))
      (isModalOpen st) (editing st) true
      (Some (nextTimerId st)) (Some goal)
      [(nextTimerId st, clock st + 5000)] (S (nextTimerId st)) (clock st + dt))
    as Htog.
  { unfold toggled. rewrite handleToggleComplete_state by done.
    erewrite advance_before_due; [reflexivity|reflexivity|simpl; lia]. }
  assert (goals (click_undo toggled) = goals st) as Hgoals.
  { rewrite Htog. rewrite click_undo_open by reflexivity.
    rewrite handleUndo_armed by done. simpl.
    rewrite replace_by_id_twice by reflexivity.
    by apply replace_by_id_self. }
  split; [by rewrite Htog|]. split; [exact Hgoals|].
  split; [by rewrite Hgoals|]. split; [by rewrite Htog|].
  assert (timers (click_undo toggled) = [] /\
          undoOpen (click_undo toggled) = false /\
          lastToggledRef (click_undo toggled) = None) as (H1 & H2 & H3).
  { rewrite Htog. rewrite click_undo_open by reflexivity.
    rewrite handleUndo_armed by done. done. }
  split; [exact H1|]. split; [exact H2|]. split; [exact H3|].
  intros now' goal'. cbv zeta.
  assert (timers_ok toggled) as Hok'.
  { rewrite Htog. split; simpl; [done|]. intros p Hp.
    apply list_elem_of_singleton in Hp as ->. done. }
  rewrite handleToggleComplete_state by exact Hok'.
  rewrite click_undo_open by reflexivity.
  rewrite Htog. cbn [goals nextTimerId clock lastToggledRef timers
                     isModalOpen editing].
  rewrite handleUndo_armed by done.
  cbn [goals nextTimerId clock lastToggledRef timers].
  split; [done|]. split; [done|].
  split; [|done]. by rewrite replace_by_id_twice.
Qed.

Lemma undo_within_window_witness :
  goals (click_undo (advance 1000
           (handleToggleComplete 2000 sample_goal sample_state)))
  = goals sample_state.
Proof.
  refine (proj1 (proj2 (undo_within_window sample_state 2000 sample_goal 1000
            sample_state_timers_ok _ sample_state_ids _))).
  - simpl. left.
  - lia.
Defined.

(** The cell [lastToggledRef] itself is not written by the timeout: it
    still holds the record from before the toggle. *)
Lemma slot_after_lapse (st : AppState) (now : Z) (goal : Goal) (dt : Z) :
  timers_ok st -> 5000 <= dt ->
  lastToggledRef (advance dt (handleToggleComplete now goal st)) = Some goal.
Proof.
  intros Hok Hdt. rewrite handleToggleComplete_state by done.
  erewrite advance_due; [|reflexivity|simpl; lia]. reflexivity.
Qed.

(** What the slot holds while the notification is closed has no effect on
    any event. *)
Lemma same_but_slot_dispatch trim Date_toISOString e st st' :
  same_but_slot st st' ->
  same_but_slot (dispatch trim Date_toISOString e st)
                (dispatch trim Date_toISOString e st').
Proof.
  destruct st as [g m ed o r l t n c], st' as [g' m' ed' o' r' l' t' n' c'].
  unfold same_but_slot. simpl.
  intros (-> & -> & -> & -> & -> & -> & -> & -> & Hslot).
  destruct e as [|goal|form uuid now|ok goal|now goal| |goal|goal|dt];
    unfold dispatch.
  - simpl. repeat split; auto.
  - simpl. repeat split; auto.
  - unfold submit_form. simpl.
    destruct (GoalForm.handleSubmit _ _ _ _ _ _); simpl; repeat split; auto.
  - unfold handleDelete. destruct ok; simpl; repeat split; auto.
  - unfold handleToggleComplete, clear_undo_timer. simpl.
    destruct r as [[|t0]|]; simpl; repeat split; auto.
  - unfold click_undo, Toast. simpl. destruct o.
    + rewrite (Hslot eq_refl). repeat split; auto.
    + simpl. repeat split; auto.
  - unfold handleIncrementStep. destruct (completed goal);
      [simpl; repeat split; auto|].
    destruct (_ >=? _); simpl; repeat split; auto.
  - unfold handleDecrementStep. destruct (completed goal);
      [simpl; repeat split; auto|].
    destruct (_ <=? _); simpl; repeat split; auto.
  - unfold advance. simpl.
    destruct (filter (fun p : nat * Z => snd p <= c + dt) t);
      simpl; repeat split; auto. discriminate.
Qed.

Lemma same_but_slot_run trim Date_toISOString events st st' :
  same_but_slot st st' ->
  same_but_slot (run trim Date_toISOString events st)
                (run trim Date_toISOString events st').
Proof.
  unfold run. revert st st'.
  induction events as [|e events IH]; intros st st' H; [done|].
  cbn [foldl]. apply IH. by apply same_but_slot_dispatch.
Qed.

Section UndoWindowLapse.
Variable trim : string -> string.
Variable Date_toISOString : string -> outcome string.

(** C3. After a toggle, when the five seconds have passed, the remembered
    record is out of the program's reach and an undo does nothing.  The
    timeout closes the notification and leaves the repository as the
    toggle made it; the undo button is gone with the notification, and
    the undo event leaves the state, the repository in it, as it is.
    Whatever events follow, the application goes through the states that
    it would go through had the slot been emptied at the lapse (they
    differ at most in the slot while the notification is closed), with
    the same repository at every point. *)
Theorem lapse_discards_undo (st : AppState) (now : Z) (goal : Goal) (dt : Z)
    (events : list Event) :
  timers_ok st -> 5000 <= dt ->
  let lapsed := advance dt (handleToggleComplete now goal st) in
  undoOpen lapsed = false /\
  timers lapsed = [] /\
  goals lapsed = goals (handleToggleComplete now goal st) /\
  Toast (undoOpen lapsed) handleUndo = None /\
  dispatch trim Date_toISOString ClickUndo lapsed = lapsed /\
  goals (dispatch trim Date_toISOString ClickUndo lapsed) = goals lapsed /\
  same_but_slot (run trim Date_toISOString events (set_lastToggledRef None lapsed))
                (run trim Date_toISOString events lapsed) /\
  goals (run trim Date_toISOString events lapsed)
    = goals (run trim Date_toISOString events (set_lastToggledRef None lapsed)).
Proof.
  intros Hok Hdt lapsed.
  assert (lapsed =
    mkApp
      (replace_by_id goal
         (with_completion goal (negb (completed goal))
            (if negb (completed goal) then Some now else None))
         (goals st))
      (isModalOpen st) (editing st) false
      (Some (nextTimerId st)) (Some goal)
      [] (S (nextTimerId st)) (clock st + dt)) as Hlapsed.
  { unfold lapsed. rewrite handleToggleComplete_state by done.
    erewrite advance_due; [reflexivity|reflexivity|simpl; lia]. }
  assert (same_but_slot (set_lastToggledRef None lapsed) lapsed) as Hsame.
  { rewrite Hlapsed. unfold same_but_slot. simpl. repeat split; auto.
    discriminate. }
  pose proof (same_but_slot_run trim Date_toISOString events _ _ Hsame) as Hrun.
  split; [by rewrite Hlapsed|]. split; [by rewrite Hlapsed|].
  split; [rewrite Hlapsed; by rewrite goals_handleToggleComplete|].
  split; [by rewrite Hlapsed|].
  assert (dispatch trim Date_toISOString ClickUndo lapsed = lapsed) as Hundo.
  { unfold dispatch. apply click_undo_closed. by rewrite Hlapsed. }
  split; [exact Hundo|]. split; [by rewrite Hundo|].
  split; [exact Hrun|]. apply Hrun.
Qed.
End UndoWindowLapse.

Lemma lapse_discards_undo_witness :
  goals (run sample_trim sample_toISOString
           [ClickUndo; ClickToggle 9000 sample_done; ClickUndo]
           (advance 5000 (handleToggleComplete 2000 sample_goal sample_state)))
  = goals (run sample_trim sample_toISOString
             [ClickUndo; ClickToggle 9000 sample_done; ClickUndo]
             (set_lastToggledRef None
                (advance 5000
                   (handleToggleComplete 2000 sample_goal sample_state)))).
Proof.
  refine (proj2 (proj2 (proj2 (proj2 (proj2 (proj2 (proj2
    (lapse_discards_undo sample_trim sample_toISOString sample_state 2000
       sample_goal 5000
       [ClickUndo; ClickToggle 9000 sample_done; ClickUndo]
       sample_state_timers_ok _)))))))).
  lia.
Defined.

(** ** Coercion of the step count *)

Lemma coerce_steps_ge_1 x : 1 <= coerce_steps x.
Proof. unfold coerce_steps. lia. Qed.

Lemma Math_round_bounds q :
  (inject_Z (Math_round q) <= q + (1 # 2) /\
   q + (1 # 2) < inject_Z (Math_round q) + 1)%Q.
Proof.
  unfold Math_round. split.
  - apply Qfloor_le.
  - pose proof (Qlt_floor (q + (1 # 2))) as H.
    rewrite inject_Z_plus in H. exact H.
Qed.

Lemma inject_Z_succ_le (a b : Z) : a < b -> (inject_Z a + 1 <= inject_Z b)%Q.
Proof.
  intros H. change 1%Q with (inject_Z 1). rewrite <- inject_Z_plus.
  rewrite <- Zle_Qle. lia.
Qed.

(** Linear arithmetic over [Q] with the injected integers as atoms. *)
Ltac q_atoms :=
  repeat match goal with
         | |- context [inject_Z ?z] =>
             let R := fresh "R" in set (R := inject_Z z) in *; clearbody R
         | H : context [inject_Z ?z] |- _ =>
             let R := fresh "R" in set (R := inject_Z z) in *; clearbody R
         end.
Ltac q_lra := q_atoms; lra.








(** ** Create and update through the form *)

Section FormProperties.
Variable trim : string -> string.
Variable Date_toISOString : string -> outcome string.

(** When the date constructor throws, the submit changes nothing. *)
Lemma submit_form_throws form uuid now st e :
  Date_toISOString (GoalForm.deadline form) = Throws e ->
  submit_form trim Date_toISOString form uuid now st = st.
Proof.
  intros H. unfold submit_form, GoalForm.handleSubmit. rewrite H. reflexivity.
Qed.


(** C2 as the code has it.  Submitting the form of a goal under edit (its
    id is not empty) with a valid date builds a record with the id and
    [createdAt] of that goal, the edited title, description, deadline,
    priority and step count, and the goal's progress and completion
    fields.  When the repository has a record of that id, every such record
    is replaced by the new one; when it has none, the new record is put in
    front of the repository. *)
Theorem update_goal (form : GoalForm.State) (uuid : string) (now : Z)
    (st : AppState) (g0 : Goal) (iso : string) :
  editing st = Some g0 -> id g0 <> "" ->
  Date_toISOString (GoalForm.deadline form) = Returns iso ->
  exists base,
    GoalForm.handleSubmit trim Date_toISOString (Some g0) form uuid now
      = Returns base /\
    id base = id g0 /\ createdAt base = createdAt g0 /\
    title base = trim (GoalForm.title form) /\
    description base = trim (GoalForm.description form) /\
    deadline base = iso /\ priority base = GoalForm.priority form /\
    steps base = coerce_steps (GoalForm.steps form) /\
    completedSteps base = completedSteps g0 /\
    completed base = completed g0 /\ completedAt base = completedAt g0 /\
    goals (submit_form trim Date_toISOString form uuid now st)
      = (if existsb (fun g => bool_decide (id g = id g0)) (goals st)
         then replace_by_id g0 base (goals st)
         else base :: goals st).
Proof.
  intros Hed Hid Hiso.
  set (base :=
    mkGoal (id g0) (trim (GoalForm.title form))
      (trim (GoalForm.description form)) iso (GoalForm.priority form)
      (coerce_steps (GoalForm.steps form)) (completedSteps g0) (completed g0)
      (createdAt g0) (completedAt g0)).
  assert (GoalForm.handleSubmit trim Date_toISOString (Some g0) form uuid now
          = Returns base) as Hs.
  { unfold GoalForm.handleSubmit, GoalForm.isEditing. rewrite Hiso.
    cbn [obind]. rewrite bool_decide_eq_false_2 by exact Hid. reflexivity. }
  exists base. split; [exact Hs|].
  repeat (split; [reflexivity|]).
  unfold submit_form. rewrite Hed, Hs. rewrite goals_handleSave. reflexivity.
Qed.

End FormProperties.



Lemma update_goal_witness :
  goals (submit_form sample_trim sample_toISOString sample_edit "g3" 2000
           (handleEdit sample_goal sample_state))
  = [mkGoal "g1" "Run a marathon" "" "2026-06-01T00:00:00.000Z" High 2 4
       false 1000 None; sample_done].
Proof.
  destruct (update_goal sample_trim sample_toISOString sample_edit "g3" 2000
              (handleEdit sample_goal sample_state) sample_goal
              "2026-06-01T00:00:00.000Z") as (base & Hbase & H).
  - reflexivity.
  - discriminate.
  - reflexivity.
  - destruct H as (_ & _ & _ & _ & _ & _ & _ & _ & _ & _ & Hgoals).
    rewrite Hgoals. vm_compute in Hbase. injection Hbase as <-.
    vm_compute. reflexivity.
Defined.

(** C2 as the specification words it fails: the form of a goal whose id is
    not in the repository is submitted, and the repository grows. *)
Lemma update_of_missing_id_inserts :
  let st := mkApp [sample_done] true (Some sample_goal) false None None [] 1 0 in
  (forall g, g ∈ goals st -> id g <> id sample_goal) /\
  goals (submit_form sample_trim sample_toISOString sample_edit "g3" 2000 st)
    <> goals st.
Proof.
  simpl. split.
  - intros g Hg. apply list_elem_of_singleton in Hg as ->. discriminate.
  - vm_compute. intros H. discriminate H.
Qed.

(** C1 fails on the edit path: the form keeps [completedSteps] of the goal
    under edit and takes the new step count as it is.  Opening the form of
    a goal with 4 of 4 steps done, lowering its steps to 2 and submitting
    stores a record with 4 of 2 steps done. *)
Lemma edit_breaks_step_bound :
  steps_inv sample_state /\
  goals (run sample_trim sample_toISOString
           [ClickEdit sample_goal; SubmitForm sample_edit "g3" 2000]
           sample_state)
    = [mkGoal "g1" "Run a marathon" "" "2026-06-01T00:00:00.000Z" High 2 4
         false 1000 None; sample_done] /\
  ~ Forall steps_ok
      (goals (run sample_trim sample_toISOString
                [ClickEdit sample_goal; SubmitForm sample_edit "g3" 2000]
                sample_state)).
Proof.
  split; [|split].
  - split; [repeat constructor; simpl; lia|]. intros last [=].
  - vm_compute. reflexivity.
  - intros H. apply Forall_cons in H as [[_ H] _].
    vm_compute in H. apply H. reflexivity.
Qed.

(** ** Loading the repository *)

Section LoadProperties.
Variable JSON_parse : string -> outcome json.

(** [loadGoals] case by case. *)
Lemma loadGoals_cases (localStorage : Storage) :
  loadGoals JSON_parse localStorage =
  Returns
    (match localStorage_getItem localStorage STORAGE_KEY with
     | Returns (Some raw) =>
         if decide (raw = "") then []
         else match JSON_parse raw with
              | Returns (JArray elems) => elems
              | _ => []
              end
     | _ => []
     end).
Proof.
  unfold loadGoals.
  destruct (localStorage_getItem localStorage STORAGE_KEY) as [[raw|]|e];
    simpl; try reflexivity.
  destruct (decide (raw = "")); simpl; [reflexivity|].
  destruct (JSON_parse raw) as [[]|]; reflexivity.
Qed.

(** C8. [loadGoals] always returns, and never throws: the empty list when
    the storage cannot be read, when the key is absent, when the stored
    text is not JSON (so for the text [not json], which [JSON.parse]
    rejects) and when the parsed value is not an array; the elements of
    the parsed array in the remaining case. *)
Theorem loadGoals_total (localStorage : Storage) :
  (exists l, loadGoals JSON_parse localStorage = Returns l) /\
  (forall e, localStorage_getItem localStorage STORAGE_KEY = Throws e ->
     loadGoals JSON_parse localStorage = Returns []) /\
  (items localStorage !! STORAGE_KEY = None ->
     loadGoals JSON_parse localStorage = Returns []) /\
  (forall raw e,
     items localStorage !! STORAGE_KEY = Some raw ->
     JSON_parse raw = Throws e ->
     loadGoals JSON_parse localStorage = Returns []) /\
  (forall e,
     items localStorage !! STORAGE_KEY = Some "not json" ->
     JSON_parse "not json" = Throws e ->
     loadGoals JSON_parse localStorage = Returns []) /\
  (forall raw v,
     items localStorage !! STORAGE_KEY = Some raw ->
     JSON_parse raw = Returns v -> Array_isArray v = false ->
     loadGoals JSON_parse localStorage = Returns []) /\
  (forall raw elems,
     accessible localStorage = true ->
     items localStorage !! STORAGE_KEY = Some raw -> raw <> "" ->
     JSON_parse raw = Returns (JArray elems) ->
     loadGoals JSON_parse localStorage = Returns elems).
Proof.
  assert (forall raw,
    items localStorage !! STORAGE_KEY = Some raw ->
    match JSON_parse raw with Returns (JArray _) => False | _ => True end ->
    loadGoals JSON_parse localStorage = Returns []) as Hbad.
  { intros raw Hraw Hp. rewrite loadGoals_cases. unfold localStorage_getItem.
    destruct (accessible localStorage); [|reflexivity]. rewrite Hraw.
    destruct (decide (raw = "")); [reflexivity|].
    destruct (JSON_parse raw) as [[]|]; try reflexivity. destruct Hp. }
  split; [eexists; apply loadGoals_cases|].
  split; [intros e He; rewrite loadGoals_cases, He; reflexivity|].
  split.
  { intros Hnone. rewrite loadGoals_cases. unfold localStorage_getItem.
    destruct (accessible localStorage); [|reflexivity]. by rewrite Hnone. }
  split; [intros raw e Hraw Hp; apply (Hbad raw Hraw); by rewrite Hp|].
  split; [intros e Hraw Hp; apply (Hbad _ Hraw); by rewrite Hp|].
  split.
  { intros raw v Hraw Hp Harr. apply (Hbad raw Hraw). rewrite Hp.
    destruct v; try exact I. discriminate Harr. }
  intros raw elems Hacc Hraw Hne Hp. rewrite loadGoals_cases.
  unfold localStorage_getItem. rewrite Hacc, Hraw.
  rewrite decide_False by exact Hne. by rewrite Hp.
Qed.

End LoadProperties.

(** ** The sort of the derived view *)

Lemma sort_insert_perm cmp x l : sort_insert cmp x l ≡ₚ x :: l.
Proof.
  induction l as [|y l IH]; simpl; [done|].
  destruct (cmp x y <=? 0); [done|].
  rewrite IH. apply Permutation_swap.
Qed.

Lemma sorted_copy_perm cmp l : sorted_copy cmp l ≡ₚ l.
Proof.
  induction l as [|x l IH]; simpl; [done|].
  rewrite sort_insert_perm. by rewrite IH.
Qed.

Section SortProperties.
Variable cmp : Goal -> Goal -> Z.
(** The comparator is consistent. *)
Hypothesis cmp_total : forall a b, 0 < cmp a b -> cmp b a <= 0.
Hypothesis cmp_trans : forall a b c, cmp a b <= 0 -> cmp b c <= 0 -> cmp a c <= 0.

Lemma sort_insert_sorted x l :
  StronglySorted (goes_before cmp) l ->
  StronglySorted (goes_before cmp) (sort_insert cmp x l).
Proof.
  induction l as [|y l IH]; intros Hs; simpl.
  - repeat constructor.
  - apply StronglySorted_cons in Hs as [Hy Hl].
    destruct (cmp x y <=? 0) eqn:E.
    + apply Z.leb_le in E. apply StronglySorted_cons. split.
      * constructor; [exact E|].
        eapply Forall_impl; [exact Hy|]. intros z Hz.
        unfold goes_before in *. eauto.
      * apply StronglySorted_cons. done.
    + apply Z.leb_gt in E. apply StronglySorted_cons. split; [|auto].
      rewrite sort_insert_perm. constructor; [|exact Hy].
      unfold goes_before. auto.
Qed.

Lemma sorted_copy_sorted l : StronglySorted (goes_before cmp) (sorted_copy cmp l).
Proof.
  induction l as [|x l IH]; simpl; [constructor|].
  by apply sort_insert_sorted.
Qed.
End SortProperties.

(** An element that goes after all of [front] is inserted behind it. *)
Lemma sort_insert_through cmp x front back :
  (forall y, y ∈ front -> 0 < cmp x y) ->
  sort_insert cmp x (front ++ back) = front ++ sort_insert cmp x back.
Proof.
  induction front as [|y front IH]; intros Hgt; simpl; [done|].
  destruct (cmp x y <=? 0) eqn:E.
  - apply Z.leb_le in E. specialize (Hgt y ltac:(left)). lia.
  - f_equal. apply IH. intros z Hz. apply Hgt. by right.
Qed.

(** An element that may stand in front of all of [back] stays in front. *)
Lemma sort_insert_stop cmp x back :
  (forall y, y ∈ back -> cmp x y <= 0) -> sort_insert cmp x back = x :: back.
Proof.
  destruct back as [|y back]; intros Hle; simpl; [done|].
  destruct (cmp x y <=? 0) eqn:E; [done|].
  apply Z.leb_gt in E. specialize (Hle y ltac:(left)). lia.
Qed.

Lemma with_priority_elem p l g : g ∈ with_priority p l -> priority g = p.
Proof. unfold with_priority. rewrite list_elem_of_filter. tauto. Qed.

Lemma with_priority_cons p g l :
  with_priority p (g :: l) =
  if decide (priority g = p) then g :: with_priority p l else with_priority p l.
Proof.
  unfold with_priority. destruct (decide (priority g = p)).
  - by rewrite filter_cons_True.
  - by rewrite filter_cons_False.
Qed.

(** The sort by descending priority is the grouping by priority: the high
    goals, then the medium ones, then the low ones, each group in the
    order of the input. *)
Lemma sorted_copy_by_priority cmp l :
  (forall a b, cmp a b = priorityOrder (priority b) - priorityOrder (priority a)) ->
  sorted_copy cmp l =
  with_priority High l ++ with_priority Medium l ++ with_priority Low l.
Proof.
  intros Hcmp. induction l as [|x l IH]; [done|].
  simpl. rewrite IH. rewrite !with_priority_cons.
  destruct (priority x) eqn:Hp; simpl.
  - rewrite app_assoc. rewrite sort_insert_through.
    + rewrite sort_insert_stop; [by rewrite <- app_assoc|].
      intros y Hy. apply with_priority_elem in Hy.
      rewrite Hcmp, Hp, Hy. simpl. lia.
    + intros y Hy. rewrite Hcmp, Hp.
      apply elem_of_app in Hy as [Hy|Hy]; apply with_priority_elem in Hy;
        rewrite Hy; simpl; lia.
  - rewrite sort_insert_through.
    + rewrite sort_insert_stop; [done|].
      intros y Hy. rewrite Hcmp, Hp.
      apply elem_of_app in Hy as [Hy|Hy]; apply with_priority_elem in Hy;
        rewrite Hy; simpl; lia.
    + intros y Hy. apply with_priority_elem in Hy.
      rewrite Hcmp, Hp, Hy. simpl. lia.
  - rewrite sort_insert_stop; [done|].
    intros y Hy. rewrite Hcmp, Hp. destruct (priority y); simpl; lia.
Qed.

(** ** The derived view *)

Lemma StronglySorted_weaken {A} (R1 R2 : relation A) (l : list A) :
  (forall x y, R1 x y -> R2 x y) -> StronglySorted R1 l -> StronglySorted R2 l.
Proof.
  intros HR. induction 1 as [|x l Hl IH Hx]; constructor; [exact IH|].
  eapply Forall_impl; [exact Hx|]. auto.
Qed.

Section ViewProperties.
Variable parseISO_getTime : string -> option Z.

Lemma priority_desc_sorted l :
  StronglySorted priority_ge
    (sorted_copy (comparator parseISO_getTime PriorityDesc) l).
Proof.
  apply (StronglySorted_weaken
           (goes_before (comparator parseISO_getTime PriorityDesc))).
  - unfold goes_before, priority_ge. simpl. intros x y. lia.
  - apply sorted_copy_sorted; simpl; intros; lia.
Qed.

(** C9. The view for the filter [completed] and the sort key
    [priority-desc] is a new array: every array that was in the store,
    the repository's among them, is as before.  The view holds exactly the
    completed goals of the repository (a permutation of them), from high
    to low priority: the high ones, then the medium ones, then the low
    ones, each group in repository order. *)
Theorem completed_by_priority (h : gmap nat (list Goal)) (goals_ref : nat)
    (gs : list Goal) :
  h !! goals_ref = Some gs ->
  exists view h' out,
    filteredGoals parseISO_getTime goals_ref FilterCompleted PriorityDesc h
      = Some (view, h') /\
    h' !! view = Some out /\
    (view ∉ dom h) /\
    (forall r, r ∈ dom h -> h' !! r = h !! r) /\
    h' !! goals_ref = Some gs /\
    (out ≡ₚ List.filter (fun g => completed g) gs) /\
    (forall g, g ∈ out <-> g ∈ gs /\ completed g = true) /\
    StronglySorted priority_ge out /\
    out = with_priority High (List.filter (fun g => completed g) gs)
          ++ with_priority Medium (List.filter (fun g => completed g) gs)
          ++ with_priority Low (List.filter (fun g => completed g) gs).
Proof.
  intros Hgs.
  set (r1 := fresh (dom h)).
  set (h1 := <[r1 := gs]> h).
  set (r2 := fresh (dom h1)).
  set (done_ := List.filter (fun g => completed g) gs).
  set (out := sorted_copy (comparator parseISO_getTime PriorityDesc) done_).
  assert (r1 ∉ dom h) as Hr1 by apply is_fresh.
  assert (r2 ∉ dom h1) as Hr2 by apply is_fresh.
  assert (r2 ∉ dom h) as Hr2h.
  { intros Hin. apply Hr2. unfold h1. rewrite dom_insert. set_solver. }
  assert (r2 <> r1) as Hne.
  { intros Heq. apply Hr2. unfold h1. rewrite dom_insert, Heq. set_solver. }
  exists r2, (<[r2 := out]> (<[r2 := done_]> h1)), out.
  assert (forall r, r ∈ dom h ->
            <[r2 := out]> (<[r2 := done_]> h1) !! r = h !! r) as Hframe.
  { intros r Hr. unfold h1.
    rewrite !lookup_insert_ne; [done| |congruence..].
    intros <-. done. }
  split.
  { unfold filteredGoals, Array_spread, Array_filter, Array_sort,
      bind, read, alloc, write, ret.
    rewrite Hgs. rewrite lookup_insert_eq. cbv beta iota.
    rewrite lookup_insert_eq. reflexivity. }
  split; [apply lookup_insert_eq|].
  split; [exact Hr2h|].
  split; [exact Hframe|].
  split.
  { rewrite Hframe; [exact Hgs|]. apply elem_of_dom. eauto. }
  split; [apply sorted_copy_perm|].
  split.
  { intros g. unfold out. rewrite sorted_copy_perm. unfold done_.
    rewrite list_elem_of_In, filter_In, <- list_elem_of_In.
    split; intros [? ?]; split; auto. }
  split; [apply priority_desc_sorted|].
  apply sorted_copy_by_priority. reflexivity.
Qed.

End ViewProperties.

Lemma completed_by_priority_witness :
  exists view h' out,
    filteredGoals (fun _ => None) 0%nat FilterCompleted PriorityDesc sample_store
      = Some (view, h') /\
    h' !! view = Some out /\
    h' !! 0%nat = Some sample_repository /\
    out = [sample_high; sample_medium; sample_low; sample_done].
Proof.
  destruct (completed_by_priority (fun _ => None) sample_store 0%nat
              sample_repository) as (view & h' & out & H1 & H2 & _ & _ & H5 & H).
  - reflexivity.
  - exists view, h', out. split; [exact H1|]. split; [exact H2|].
    split; [exact H5|]. destruct H as (_ & _ & _ & ->). reflexivity.
Defined.

Lemma loadGoals_total_witness :
  loadGoals sample_parse sample_storage = Returns [].
Proof.
  refine (proj1 (proj2 (proj2 (proj2 (proj2
            (loadGoals_total sample_parse sample_storage)))))
            "SyntaxError" _ _); reflexivity.
Defined.

(** ** The bound on the step counter *)

Lemma Forall_replace_by_id (P : Goal -> Prop) target r l :
  Forall P l -> P r -> Forall P (replace_by_id target r l).
Proof.
  intros Hl Hr. unfold replace_by_id. apply Forall_fmap.
  eapply Forall_impl; [exact Hl|]. intros g Hg. simpl.
  by destruct (decide (id g = id target)).
Qed.

Lemma steps_inv_handleToggleComplete now goal st :
  steps_inv st -> goal ∈ goals st ->
  steps_inv (handleToggleComplete now goal st).
Proof.
  intros [Hgs Hlast] Hin.
  assert (steps_ok goal) as Hok by (eapply Forall_forall in Hgs; eauto).
  split.
  - rewrite goals_handleToggleComplete. by apply Forall_replace_by_id.
  - unfold handleToggleComplete, clear_undo_timer. simpl.
    destruct (undoTimerRef st) as [[|t]|]; simpl; intros last [= <-]; done.
Qed.

Lemma steps_inv_handleUndo st : steps_inv st -> steps_inv (handleUndo st).
Proof.
  intros [Hgs Hlast]. split.
  - rewrite goals_handleUndo. destruct (lastToggledRef st) as [last|]; [|done].
    apply Forall_replace_by_id; auto.
  - unfold handleUndo, clear_undo_timer.
    destruct (lastToggledRef st) as [last|] eqn:E; [|by rewrite E].
    simpl. destruct (undoTimerRef st) as [[|t]|]; simpl; intros ? [=].
Qed.

Lemma steps_inv_handleIncrementStep goal st :
  steps_inv st -> goal ∈ goals st -> steps_inv (handleIncrementStep goal st).
Proof.
  intros [Hgs Hlast] Hin.
  assert (steps_ok goal) as [Hlo Hhi] by (eapply Forall_forall in Hgs; eauto).
  unfold handleIncrementStep.
  destruct (completed goal); [done|].
  destruct (completedSteps goal >=? steps goal) eqn:E; [done|].
  split; [|exact Hlast]. simpl. apply Forall_replace_by_id; [done|].
  unfold steps_ok. simpl. lia.
Qed.

Lemma steps_inv_handleDecrementStep goal st :
  steps_inv st -> goal ∈ goals st -> steps_inv (handleDecrementStep goal st).
Proof.
  intros [Hgs Hlast] Hin.
  assert (steps_ok goal) as [Hlo Hhi] by (eapply Forall_forall in Hgs; eauto).
  unfold handleDecrementStep.
  destruct (completed goal); [done|].
  destruct (completedSteps goal <=? 0) eqn:E; [done|].
  split; [|exact Hlast]. simpl. apply Forall_replace_by_id; [done|].
  unfold steps_ok. simpl. lia.
Qed.

Lemma steps_inv_handleDelete ok goal st :
  steps_inv st -> steps_inv (handleDelete ok goal st).
Proof.
  intros [Hgs Hlast]. unfold handleDelete. destruct ok; simpl; [|done].
  split; [|exact Hlast]. simpl. apply Forall_forall. intros g Hg.
  apply list_elem_of_filter in Hg as [_ Hg].
  eapply Forall_forall in Hgs; eauto.
Qed.

(** Creation stores a record within the bound, whatever the step input. *)
Lemma steps_inv_create trim Date_toISOString form uuid now st :
  steps_inv st ->
  steps_inv (submit_form trim Date_toISOString form uuid now (handleAddNew st)).
Proof.
  intros [Hgs Hlast]. unfold submit_form.
  change (editing (handleAddNew st)) with (@None Goal).
  unfold GoalForm.handleSubmit.
  destruct (Date_toISOString (GoalForm.deadline form)) as [iso|e];
    cbn [obind]; [|done].
  split; [|exact Hlast]. rewrite goals_handleSave.
  change (goals (handleAddNew st)) with (goals st).
  assert (steps_ok (mkGoal uuid (trim (GoalForm.title form))
            (trim (GoalForm.description form)) iso (GoalForm.priority form)
            (coerce_steps (GoalForm.steps form)) 0 false now None)) as Hnew.
  { unfold steps_ok. simpl.
    pose proof (coerce_steps_ge_1 (GoalForm.steps form)). lia. }
  destruct (existsb _ (goals st)).
  - by apply Forall_replace_by_id.
  - by constructor.
Qed.

(** Outside the bound the guards of the step buttons still hold them back:
    a counter beyond [steps] is not incremented, a negative one is not
    decremented. *)
Lemma guards_outside_bound goal st :
  (steps goal < completedSteps goal -> handleIncrementStep goal st = st) /\
  (completedSteps goal < 0 -> handleDecrementStep goal st = st).
Proof.
  unfold handleIncrementStep, handleDecrementStep. split; intros H.
  - destruct (completed goal); [done|].
    destruct (completedSteps goal >=? steps goal) eqn:E; [done|lia].
  - destruct (completed goal); [done|].
    destruct (completedSteps goal <=? 0) eqn:E; [done|lia].
Qed.

(** ** Timers along a run *)

Lemma timers_ok_same_timers st st' :
  timers st' = timers st -> undoTimerRef st' = undoTimerRef st ->
  nextTimerId st' = nextTimerId st -> timers_ok st -> timers_ok st'.
Proof.
  intros Ht Hr Hn [H1 H2]. split; [by rewrite Hn|].
  rewrite Ht, Hr. exact H2.
Qed.

Lemma timers_ok_clear_undo_timer st :
  timers_ok st -> timers_ok (clear_undo_timer st).
Proof.
  intros Hok. unfold clear_undo_timer.
  destruct (undoTimerRef st) as [[|t]|] eqn:E; [done| |done].
  destruct Hok as [H1 H2]. split; [done|]. simpl. rewrite E.
  intros p Hp. apply list_elem_of_filter in Hp as [_ Hp].
  specialize (H2 p Hp). by rewrite E in H2.
Qed.

Lemma timers_ok_handleUndo st : timers_ok st -> timers_ok (handleUndo st).
Proof.
  intros Hok. unfold handleUndo. destruct (lastToggledRef st); [|done].
  apply timers_ok_clear_undo_timer.
  eapply timers_ok_same_timers; [..|exact Hok]; reflexivity.
Qed.

Lemma timers_ok_advance dt st : timers_ok st -> timers_ok (advance dt st).
Proof.
  intros [H1 H2]. split; [done|]. simpl.
  intros p Hp. apply list_elem_of_filter in Hp as [_ Hp]. auto.
Qed.

Lemma timers_ok_dispatch trim Date_toISOString e st :
  timers_ok st -> timers_ok (dispatch trim Date_toISOString e st).
Proof.
  intros Hok. destruct e as [|goal|form uuid now|ok goal|now goal| |goal|goal|dt];
    simpl.
  - eapply timers_ok_same_timers; [..|exact Hok]; reflexivity.
  - eapply timers_ok_same_timers; [..|exact Hok]; reflexivity.
  - unfold submit_form.
    destruct (GoalForm.handleSubmit _ _ _ _ _ _); [|done].
    eapply timers_ok_same_timers; [..|exact Hok]; reflexivity.
  - unfold handleDelete. destruct ok; [|done].
    eapply timers_ok_same_timers; [..|exact Hok]; reflexivity.
  - by apply timers_ok_handleToggleComplete.
  - unfold click_undo, Toast. destruct (undoOpen st); [|done].
    by apply timers_ok_handleUndo.
  - unfold handleIncrementStep. destruct (completed goal); [done|].
    destruct (_ >=? _); [done|].
    eapply timers_ok_same_timers; [..|exact Hok]; reflexivity.
  - unfold handleDecrementStep. destruct (completed goal); [done|].
    destruct (_ <=? _); [done|].
    eapply timers_ok_same_timers; [..|exact Hok]; reflexivity.
  - by apply timers_ok_advance.
Qed.

(** Every state that the application reaches from its start has at most
    the timeout of the undo slot pending. *)
Lemma timers_ok_run trim Date_toISOString events loaded :
  timers_ok (run trim Date_toISOString events (initial_state loaded)).
Proof.
  unfold run.
  assert (timers_ok (initial_state loaded)) as Hinit.
  { split; simpl; [lia|]. intros p Hp. inversion Hp. }
  revert Hinit. generalize (initial_state loaded).
  induction events as [|e events IH]; intros st Hok; simpl; [done|].
  apply IH. by apply timers_ok_dispatch.
Qed.

(** * Further properties of the code *)

(** ** Ids along a run *)

Lemma run_cons trim Date_toISOString e events st :
  run trim Date_toISOString (e :: events) st
  = run trim Date_toISOString events (dispatch trim Date_toISOString e st).
Proof. reflexivity. Qed.

Lemma NoDup_ids_filter (P : Goal -> Prop) `{forall g, Decision (P g)} l :
  NoDup (id <$> l) -> NoDup (id <$> filter P l).
Proof.
  induction l as [|g l IH]; intros Hnd; [done|].
  rewrite fmap_cons in Hnd. apply NoDup_cons in Hnd as [Hg Hnd].
  destruct (decide (P g)).
  - rewrite filter_cons_True by done. rewrite fmap_cons.
    apply NoDup_cons. split; [|auto].
    intros Hin. apply Hg. apply list_elem_of_fmap in Hin as (x & Hx & Hin).
    apply list_elem_of_filter in Hin as [_ Hin].
    apply list_elem_of_fmap. eauto.
  - rewrite filter_cons_False by done. auto.
Qed.

Lemma NoDup_ids_dispatch trim Date_toISOString e st :
  NoDup (id <$> goals st) ->
  NoDup (id <$> goals (dispatch trim Date_toISOString e st)).
Proof.
  intros Hnd.
  destruct e as [|goal|form uuid now|ok goal|now goal| |goal|goal|dt];
    unfold dispatch.
  - done.
  - done.
  - unfold submit_form.
    destruct (GoalForm.handleSubmit _ _ _ _ _ _); [|done].
    by apply NoDup_ids_handleSave.
  - unfold handleDelete. destruct ok; simpl; [|done].
    by apply NoDup_ids_filter.
  - rewrite goals_handleToggleComplete. by apply NoDup_ids_replace.
  - unfold click_undo, Toast. destruct (undoOpen st); [|done].
    rewrite goals_handleUndo. destruct (lastToggledRef st); [|done].
    by apply NoDup_ids_replace.
  - unfold handleIncrementStep. destruct (completed goal); [done|].
    destruct (_ >=? _); [done|]. simpl. by apply NoDup_ids_replace.
  - unfold handleDecrementStep. destruct (completed goal); [done|].
    destruct (_ <=? _); [done|]. simpl. by apply NoDup_ids_replace.
  - done.
Qed.

(** X1. No sequence of events brings a second record of an id into the
    repository: from a state whose ids are distinct, every run ends in a
    state whose ids are distinct, whatever ids the generator hands out and
    whatever records the handlers are called with. *)
Theorem unique_ids_run trim Date_toISOString (events : list Event)
    (st : AppState) :
  NoDup (id <$> goals st) ->
  NoDup (id <$> goals (run trim Date_toISOString events st)).
Proof.
  revert st. induction events as [|e events IH]; intros st Hnd; [done|].
  rewrite run_cons. apply IH. by apply NoDup_ids_dispatch.
Qed.

Lemma unique_ids_run_witness :
  NoDup (id <$> goals (run sample_trim sample_toISOString
                         [ClickAddGoal; SubmitForm sample_new "g1" 2000;
                          ClickToggle 2100 sample_done; ClickUndo]
                         sample_state)).
Proof.
  apply (unique_ids_run sample_trim sample_toISOString _ sample_state).
  apply sample_state_ids.
Defined.

(** ** The step bound along a run *)

Lemma steps_inv_editing_same st st' :
  goals st' = goals st -> lastToggledRef st' = lastToggledRef st ->
  editing st' = editing st ->
  steps_inv_editing st -> steps_inv_editing st'.
Proof.
  intros Hg Hl He [[H1 H2] H3]. unfold steps_inv_editing, steps_inv.
  rewrite Hg, Hl, He. done.
Qed.

Lemma editing_clear_undo_timer st : editing (clear_undo_timer st) = editing st.
Proof.
  unfold clear_undo_timer. destruct (undoTimerRef st) as [[|t]|]; reflexivity.
Qed.

Lemma editing_handleToggleComplete now goal st :
  editing (handleToggleComplete now goal st) = editing st.
Proof.
  unfold handleToggleComplete. simpl. by rewrite editing_clear_undo_timer.
Qed.

Lemma editing_handleUndo st : editing (handleUndo st) = editing st.
Proof.
  unfold handleUndo. destruct (lastToggledRef st); [|done].
  by rewrite editing_clear_undo_timer.
Qed.

Lemma editing_handleIncrementStep goal st :
  editing (handleIncrementStep goal st) = editing st.
Proof.
  unfold handleIncrementStep. destruct (completed goal); [done|].
  by destruct (_ >=? _).
Qed.

Lemma editing_handleDecrementStep goal st :
  editing (handleDecrementStep goal st) = editing st.
Proof.
  unfold handleDecrementStep. destruct (completed goal); [done|].
  by destruct (_ <=? _).
Qed.

Lemma steps_inv_editing_dispatch trim Date_toISOString e st :
  enabled e st -> keeps_progress e st ->
  steps_inv_editing st ->
  steps_inv_editing (dispatch trim Date_toISOString e st).
Proof.
  intros Hen Hkeep [Hinv Hed].
  destruct e as [|goal|form uuid now|ok goal|now goal| |goal|goal|dt];
    unfold dispatch; unfold enabled in Hen.
  - split; [exact Hinv|]. intros g [=].
  - split; [exact Hinv|]. intros g [= <-].
    destruct Hinv as [Hgs _]. eapply Forall_forall in Hgs; eauto.
  - unfold submit_form, GoalForm.handleSubmit.
    destruct (Date_toISOString (GoalForm.deadline form)) as [iso|err];
      cbn [obind]; [|done].
    split; [|intros g [=]]. destruct Hinv as [Hgs Hlast].
    split; [|exact Hlast]. rewrite goals_handleSave.
    match goal with
    | |- context [existsb ?f ?l] => destruct (existsb f l)
    end; [apply Forall_replace_by_id|constructor]; try exact Hgs;
      unfold steps_ok; cbn [completedSteps steps];
      pose proof (coerce_steps_ge_1 (GoalForm.steps form));
      unfold keeps_progress in Hkeep;
      (destruct (editing st) as [g|]; [|lia]);
      (destruct (Hed g eq_refl) as [Hlo _]; lia).
  - split; [by apply steps_inv_handleDelete|].
    unfold handleDelete. by destruct ok.
  - split; [by apply steps_inv_handleToggleComplete|].
    by rewrite editing_handleToggleComplete.
  - unfold click_undo, Toast. destruct (undoOpen st); [|done].
    split; [by apply steps_inv_handleUndo|]. by rewrite editing_handleUndo.
  - destruct Hen as [Hin _].
    split; [by apply steps_inv_handleIncrementStep|].
    by rewrite editing_handleIncrementStep.
  - destruct Hen as [Hin _].
    split; [by apply steps_inv_handleDecrementStep|].
    by rewrite editing_handleDecrementStep.
  - eapply steps_inv_editing_same; [..|split; [exact Hinv|exact Hed]];
      reflexivity.
Qed.

(** X2. The step bound is kept by the whole application as long as no edit
    puts the step count below the progress of the goal it edits: from a
    state within the bound, every run of offered events (cards act on
    records of the repository) in which each submit of an edit form has a
    coerced step count of at least [completedSteps] of the edited goal
    ends within the bound. *)
Theorem steps_bound_run trim Date_toISOString (events : list Event)
    (st : AppState) :
  steps_inv st -> editing st = None ->
  offered trim Date_toISOString keeps_progress events st ->
  Forall steps_ok (goals (run trim Date_toISOString events st)).
Proof.
  intros Hinv Hed Hoff.
  assert (steps_inv_editing st) as Hst.
  { split; [exact Hinv|]. intros g Hg. congruence. }
  clear Hinv Hed. revert st Hst Hoff.
  induction events as [|e events IH]; intros st Hst Hoff.
  - apply Hst.
  - destruct Hoff as (Hen & Hkeep & Hoff). rewrite run_cons.
    apply IH; [|exact Hoff]. by apply steps_inv_editing_dispatch.
Qed.

(** ** The countdown of the undo notification *)

Lemma countdown_ok_same st st' :
  timers st' = timers st -> undoTimerRef st' = undoTimerRef st ->
  nextTimerId st' = nextTimerId st -> clock st' = clock st ->
  undoOpen st' = undoOpen st ->
  countdown_ok st -> countdown_ok st'.
Proof.
  intros Ht Hr Hn Hc Ho (H1 & H2 & H3 & H4). unfold countdown_ok.
  rewrite Ht, Hc, Ho. split; [|done].
  by apply (timers_ok_same_timers st).
Qed.

Lemma filter_all {A} (P : A -> Prop) `{forall x, Decision (P x)} (l : list A) :
  (forall x, x ∈ l -> P x) -> filter P l = l.
Proof.
  induction l as [|x l IH]; intros Hall; [done|].
  rewrite filter_cons_True by (apply Hall; left).
  f_equal. apply IH. intros y Hy. apply Hall. by right.
Qed.

Lemma length_filter_le {A} (P : A -> Prop) `{forall x, Decision (P x)}
    (l : list A) : (length (filter P l) <= length l)%nat.
Proof.
  induction l as [|x l IH]; [done|].
  destruct (decide (P x)).
  - rewrite filter_cons_True by done. simpl. lia.
  - rewrite filter_cons_False by done. simpl. lia.
Qed.

Lemma countdown_ok_handleToggleComplete now goal st :
  countdown_ok st -> countdown_ok (handleToggleComplete now goal st).
Proof.
  intros (Hok & _). split; [by apply timers_ok_handleToggleComplete|].
  rewrite handleToggleComplete_state by done. simpl.
  split; [lia|]. split; [|done].
  intros p Hp. apply list_elem_of_singleton in Hp as ->. simpl. lia.
Qed.

Lemma countdown_ok_handleUndo st :
  countdown_ok st -> countdown_ok (handleUndo st).
Proof.
  intros (Hok & Hlen & Hdue & Hopen).
  split; [by apply timers_ok_handleUndo|].
  unfold handleUndo. destruct (lastToggledRef st) as [last|]; [|done].
  unfold clear_undo_timer. simpl.
  destruct (undoTimerRef st) as [[|t]|]; simpl; try done.
  split; [|split; [|done]].
  - etrans; [apply length_filter_le|done].
  - intros p Hp. apply list_elem_of_filter in Hp as [_ Hp]. auto.
Qed.

Lemma countdown_ok_advance dt st :
  0 <= dt -> countdown_ok st -> countdown_ok (advance dt st).
Proof.
  intros Hdt (Hok & Hlen & Hdue & Hopen).
  split; [by apply timers_ok_advance|]. simpl.
  split; [etrans; [apply length_filter_le|done]|]. split.
  - intros p Hp. apply list_elem_of_filter in Hp as [Hnot Hp].
    specialize (Hdue p Hp). lia.
  - destruct (filter (fun p : nat * Z => snd p <= clock st + dt) (timers st))
      as [|q fired] eqn:E; [|done].
    intros Ho. rewrite filter_all; [auto|].
    intros p Hp Hle.
    assert (p ∈ filter (fun p : nat * Z => snd p <= clock st + dt) (timers st))
      as Hin by (apply list_elem_of_filter; done).
    rewrite E in Hin. inversion Hin.
Qed.

Lemma countdown_ok_dispatch trim Date_toISOString e st :
  enabled e st -> countdown_ok st ->
  countdown_ok (dispatch trim Date_toISOString e st).
Proof.
  intros Hen Hok.
  destruct e as [|goal|form uuid now|ok goal|now goal| |goal|goal|dt];
    unfold dispatch.
  - eapply countdown_ok_same; [..|exact Hok]; reflexivity.
  - eapply countdown_ok_same; [..|exact Hok]; reflexivity.
  - unfold submit_form.
    destruct (GoalForm.handleSubmit _ _ _ _ _ _); [|done].
    eapply countdown_ok_same; [..|exact Hok]; reflexivity.
  - unfold handleDelete. destruct ok; [|done].
    eapply countdown_ok_same; [..|exact Hok]; reflexivity.
  - by apply countdown_ok_handleToggleComplete.
  - unfold click_undo, Toast. destruct (undoOpen st); [|done].
    by apply countdown_ok_handleUndo.
  - unfold handleIncrementStep. destruct (completed goal); [done|].
    destruct (_ >=? _); [done|].
    eapply countdown_ok_same; [..|exact Hok]; reflexivity.
  - unfold handleDecrementStep. destruct (completed goal); [done|].
    destruct (_ <=? _); [done|].
    eapply countdown_ok_same; [..|exact Hok]; reflexivity.
  - by apply countdown_ok_advance.
Qed.

Lemma countdown_ok_initial loaded : countdown_ok (initial_state loaded).
Proof.
  split; [|split; [simpl; lia|split]].
  - split; simpl; [lia|]. intros p Hp. inversion Hp.
  - intros p Hp. inversion Hp.
  - discriminate.
Qed.

Lemma countdown_ok_run trim Date_toISOString events st :
  countdown_ok st ->
  offered trim Date_toISOString (fun _ _ => True) events st ->
  countdown_ok (run trim Date_toISOString events st).
Proof.
  revert st. induction events as [|e events IH]; intros st Hok Hoff; [done|].
  destruct Hoff as (Hen & _ & Hoff). rewrite run_cons.
  apply IH; [|exact Hoff]. by apply countdown_ok_dispatch.
Qed.

(** X3. However the user toggles, undoes and waits, the application never
    has more than one timeout pending, and the pending one is the one that
    [undoTimerRef] names and is due within five seconds: a toggle cancels
    the countdown of the toggle before it. *)
Theorem single_countdown trim Date_toISOString (events : list Event)
    (loaded : list Goal) :
  offered trim Date_toISOString (fun _ _ => True) events (initial_state loaded) ->
  let st := run trim Date_toISOString events (initial_state loaded) in
  (length (timers st) <= 1)%nat /\
  forall t due, (t, due) ∈ timers st ->
    undoTimerRef st = Some t /\ clock st < due <= clock st + 5000.
Proof.
  intros Hoff st.
  destruct (countdown_ok_run trim Date_toISOString events _
              (countdown_ok_initial loaded) Hoff)
    as ((_ & Href) & Hlen & Hdue & _).
  split; [exact Hlen|]. intros t due Hin. split.
  - apply (Href _ Hin).
  - apply (Hdue _ Hin).
Qed.

(** X4. The undo notification never stays: in every state that the
    application reaches, an open notification is closed, and no timeout
    is left, once five seconds pass without a further event. *)
Theorem notification_closes trim Date_toISOString (events : list Event)
    (loaded : list Goal) :
  offered trim Date_toISOString (fun _ _ => True) events (initial_state loaded) ->
  let st := run trim Date_toISOString events (initial_state loaded) in
  undoOpen (advance 5000 st) = false /\ timers (advance 5000 st) = [].
Proof.
  intros Hoff st.
  destruct (countdown_ok_run trim Date_toISOString events _
              (countdown_ok_initial loaded) Hoff)
    as (_ & Hlen & Hdue & Hopen).
  fold st in Hlen, Hdue, Hopen.
  destruct (timers st) as [|[t due] rest] eqn:Ht.
  - unfold advance. rewrite Ht. simpl.
    destruct (undoOpen st); [|done]. exfalso. by apply Hopen.
  - destruct rest; [|simpl in Hlen; lia].
    assert (due <= clock st + 5000) as Hle by (apply (Hdue (t, due)); left).
    by rewrite (advance_due 5000 st t due Ht Hle).
Qed.

(** ** Clicks on a card *)

Lemma card_Some filter key st goal :
  card filter key st = Some goal ->
  goal ∈ goals st /\ id goal = key /\ passes filter goal = true.
Proof.
  unfold card. intros H. apply find_some in H as [Hin Hp].
  apply andb_true_iff in Hp as [Hid Hpass].
  apply bool_decide_eq_true in Hid.
  split; [by apply list_elem_of_In|done].
Qed.

Lemma find_replace_by_id filter key goal updated (l : list Goal) :
  id goal = key -> id updated = key -> passes filter updated = true ->
  List.find (fun g => bool_decide (id g = key) && passes filter g) l = Some goal ->
  List.find (fun g => bool_decide (id g = key) && passes filter g)
    (replace_by_id goal updated l) = Some updated.
Proof.
  intros Hg Hu Hpass. unfold replace_by_id.
  induction l as [|x l IH]; intros Hfind; [discriminate|].
  rewrite fmap_cons. simpl in *.
  destruct (decide (id x = id goal)) as [Heq|Hne].
  - rewrite bool_decide_eq_true_2 by done. by rewrite Hpass.
  - rewrite bool_decide_eq_false_2 in * by congruence. simpl in *. auto.
Qed.

Lemma card_setGoals_replace filter key st goal updated :
  card filter key st = Some goal ->
  id updated = id goal -> passes filter updated = true ->
  card filter key (setGoals (replace_by_id goal updated) st) = Some updated.
Proof.
  intros Hcard Hid Hpass. destruct (card_Some _ _ _ _ Hcard) as (_ & Hkey & _).
  unfold card in *. simpl.
  apply find_replace_by_id; [done|congruence|done|done].
Qed.

Lemma setGoals_id st : setGoals (fun _ => goals st) st = st.
Proof. by destruct st. Qed.

Lemma setGoals_setGoals f g st :
  setGoals g (setGoals f st) = setGoals (fun l => g (f l)) st.
Proof. reflexivity. Qed.

Lemma setGoals_ext f g st :
  f (goals st) = g (goals st) -> setGoals f st = setGoals g st.
Proof. intros H. unfold setGoals. by rewrite H. Qed.

Lemma with_completedSteps_same goal :
  with_completedSteps goal (completedSteps goal) = goal.
Proof. by destruct goal. Qed.

Lemma handleIncrementStep_below goal st :
  completed goal = false -> completedSteps goal < steps goal ->
  handleIncrementStep goal st =
  setGoals (replace_by_id goal
              (with_completedSteps goal (completedSteps goal + 1))) st.
Proof.
  intros Hc Hlt. unfold handleIncrementStep. rewrite Hc.
  destruct (completedSteps goal >=? steps goal) eqn:E; [lia|done].
Qed.

Lemma handleDecrementStep_above goal st :
  completed goal = false -> 0 < completedSteps goal ->
  handleDecrementStep goal st =
  setGoals (replace_by_id goal
              (with_completedSteps goal (completedSteps goal - 1))) st.
Proof.
  intros Hc Hlt. unfold handleDecrementStep. rewrite Hc.
  destruct (completedSteps goal <=? 0) eqn:E; [lia|done].
Qed.

(** X5. A step forward and a step back on the same card undo each other:
    for a card of an uncompleted goal with its step buttons, in a
    repository with distinct ids, clicking forward then back (when the
    counter is below [steps]) or back then forward (when it is above 0)
    gives the state from before, the second click acting on the record
    that the first one left.  The counter is taken within the bound, and
    is a safe integer, so that the two additions are exact. *)
Theorem step_forward_back (filter : FilterKey) (key : string) (st : AppState)
    (goal : Goal) :
  card filter key st = Some goal -> NoDup (id <$> goals st) ->
  showProgress goal = true -> completed goal = false ->
  safe_integer (completedSteps goal) ->
  (0 <= completedSteps goal < steps goal ->
     click_step_back filter key (click_step_forward filter key st) = st) /\
  (0 < completedSteps goal <= steps goal ->
     click_step_forward filter key (click_step_back filter key st) = st).
Proof.
  intros Hcard Hnd Hshow Hc _.
  destruct (card_Some _ _ _ _ Hcard) as (Hin & Hkey & Hpass).
  assert (forall n, passes filter (with_completedSteps goal n) = true) as Hpass'
    by (intros n; by destruct filter).
  split; intros Hcs.
  - unfold click_step_forward. rewrite Hcard, Hshow.
    rewrite handleIncrementStep_below by (first [done|lia]).
    unfold click_step_back.
    rewrite (card_setGoals_replace filter key st goal
               (with_completedSteps goal (completedSteps goal + 1)))
      by done.
    change (showProgress (with_completedSteps goal (completedSteps goal + 1)))
      with (showProgress goal). rewrite Hshow.
    rewrite handleDecrementStep_above by (first [done|simpl; lia]).
    rewrite setGoals_setGoals. rewrite <- (setGoals_id st) at 2.
    apply setGoals_ext. simpl completedSteps.
    replace (completedSteps goal + 1 - 1) with (completedSteps goal) by lia.
    change (replace_by_id goal
              (with_completedSteps
                 (with_completedSteps goal (completedSteps goal + 1))
                 (completedSteps goal))
              (replace_by_id goal
                 (with_completedSteps goal (completedSteps goal + 1))
                 (goals st)) = goals st).
    rewrite replace_by_id_twice by reflexivity.
    change (with_completedSteps
              (with_completedSteps goal (completedSteps goal + 1))
              (completedSteps goal))
      with (with_completedSteps goal (completedSteps goal)).
    rewrite with_completedSteps_same. by apply replace_by_id_self.
  - unfold click_step_back. rewrite Hcard, Hshow.
    rewrite handleDecrementStep_above by (first [done|lia]).
    unfold click_step_forward.
    rewrite (card_setGoals_replace filter key st goal
               (with_completedSteps goal (completedSteps goal - 1)))
      by done.
    change (showProgress (with_completedSteps goal (completedSteps goal - 1)))
      with (showProgress goal). rewrite Hshow.
    rewrite handleIncrementStep_below by (first [done|simpl; lia]).
    rewrite setGoals_setGoals. rewrite <- (setGoals_id st) at 2.
    apply setGoals_ext. simpl completedSteps.
    replace (completedSteps goal - 1 + 1) with (completedSteps goal) by lia.
    change (replace_by_id goal
              (with_completedSteps
                 (with_completedSteps goal (completedSteps goal - 1))
                 (completedSteps goal))
              (replace_by_id goal
                 (with_completedSteps goal (completedSteps goal - 1))
                 (goals st)) = goals st).
    rewrite replace_by_id_twice by reflexivity.
    change (with_completedSteps
              (with_completedSteps goal (completedSteps goal - 1))
              (completedSteps goal))
      with (with_completedSteps goal (completedSteps goal)).
    rewrite with_completedSteps_same. by apply replace_by_id_self.
Qed.

Lemma handleIncrementStep_at_end goal st :
  steps goal <= completedSteps goal -> handleIncrementStep goal st = st.
Proof.
  intros H. unfold handleIncrementStep. destruct (completed goal); [done|].
  destruct (completedSteps goal >=? steps goal) eqn:E; [done|lia].
Qed.

(** X6. Repeated steps forward stop at the step count and never complete
    the goal: after [n] clicks on the forward button of the card of an
    uncompleted goal, each on the record that the click before left, the
    card shows the goal with [completedSteps] at the smaller of [steps] and
    the old counter plus [n], still not completed, and the records of other
    ids are as before.  The counter and the step count are safe integers,
    so that every addition on the way is exact. *)
Theorem steps_forward_saturate (filter : FilterKey) (key : string)
    (st : AppState) (goal : Goal) (n : nat) :
  card filter key st = Some goal ->
  showProgress goal = true -> completed goal = false ->
  completedSteps goal <= steps goal ->
  safe_integer (completedSteps goal) -> safe_integer (steps goal) ->
  let after := Nat.iter n (click_step_forward filter key) st in
  card filter key after
    = Some (with_completedSteps goal
              (Z.min (steps goal) (completedSteps goal + Z.of_nat n))) /\
  others key (goals after) = others key (goals st).
Proof.
  intros Hcard Hshow Hc Hle _ _.
  destruct (card_Some _ _ _ _ Hcard) as (Hin & Hkey & Hpass).
  assert (forall m, passes filter (with_completedSteps goal m) = true) as Hpass'
    by (intros m; by destruct filter).
  induction n as [|n [IHcard IHothers]]; cbv zeta.
  - split; [|done]. simpl Nat.iter.
    replace (Z.min (steps goal) (completedSteps goal + Z.of_nat 0))
      with (completedSteps goal) by lia.
    by rewrite with_completedSteps_same.
  - cbv zeta in IHcard, IHothers. simpl Nat.iter.
    set (before := Nat.iter n (click_step_forward filter key) st) in *.
    set (m := Z.min (steps goal) (completedSteps goal + Z.of_nat n)) in *.
    unfold click_step_forward. rewrite IHcard.
    change (showProgress (with_completedSteps goal m)) with (showProgress goal).
    rewrite Hshow.
    destruct (decide (m < steps goal)) as [Hlt|Hge].
    + rewrite handleIncrementStep_below by done.
      rewrite (card_setGoals_replace filter key before
                 (with_completedSteps goal m)) by done.
      split.
      * f_equal. simpl completedSteps.
        change (with_completedSteps (with_completedSteps goal m) (m + 1))
          with (with_completedSteps goal (m + 1)).
        f_equal. lia.
      * rewrite <- IHothers. rewrite <- Hkey.
        change (goals (setGoals ?f before)) with (f (goals before)).
        by apply (others_replace_by_id (with_completedSteps goal m)).
    + rewrite handleIncrementStep_at_end by (simpl; lia).
      split; [|exact IHothers]. rewrite IHcard. do 2 f_equal. lia.
Qed.

(** ** Undo and delete *)

Lemma others_no_target target (l : list Goal) g :
  g ∈ others target l -> id g <> target.
Proof. unfold others. rewrite list_elem_of_filter. tauto. Qed.

(** X7. Undo does not bring back a deleted goal.  When a goal is toggled
    and then deleted while the notification is still open, a click on
    undo leaves the repository as the deletion left it: the records of the
    other ids, none of the deleted id. *)
Theorem undo_after_delete (now : Z) (goal : Goal) (st : AppState) :
  let deleted := handleDelete true goal (handleToggleComplete now goal st) in
  undoOpen deleted = true /\
  lastToggledRef deleted = Some goal /\
  goals (click_undo deleted) = goals deleted /\
  goals (click_undo deleted) = others (id goal) (goals st) /\
  forall g, g ∈ goals (click_undo deleted) -> id g <> id goal.
Proof.
  cbv zeta.
  assert (goals (handleDelete true goal (handleToggleComplete now goal st))
          = others (id goal) (goals st)) as Hdel.
  { unfold handleDelete. cbn [negb]. cbv iota.
    change (goals (setGoals ?f ?s)) with (f (goals s)).
    rewrite goals_handleToggleComplete.
    by apply (others_replace_by_id goal). }
  assert (undoOpen (handleDelete true goal (handleToggleComplete now goal st))
          = true /\
          lastToggledRef (handleDelete true goal (handleToggleComplete now goal st))
          = Some goal) as [Hopen Hlast].
  { unfold handleDelete, handleToggleComplete, clear_undo_timer. simpl.
    destruct (undoTimerRef st) as [[|t]|]; done. }
  assert (goals
            (click_undo (handleDelete true goal (handleToggleComplete now goal st)))
          = others (id goal) (goals st)) as Hundo.
  { rewrite click_undo_open by exact Hopen.
    rewrite goals_handleUndo, Hlast, Hdel.
    apply replace_by_id_absent. intros g. apply others_no_target. }
  split; [exact Hopen|]. split; [exact Hlast|].
  split; [by rewrite Hundo, Hdel|]. split; [exact Hundo|].
  intros g. rewrite Hundo. apply others_no_target.
Qed.

(** ** Toggling twice *)

Lemma lastToggledRef_handleToggleComplete now goal st :
  lastToggledRef (handleToggleComplete now goal st) = Some goal.
Proof.
  unfold handleToggleComplete, clear_undo_timer. simpl.
  by destruct (undoTimerRef st) as [[|t]|].
Qed.

Lemma card_handleToggleComplete key now goal st :
  card FilterAll key st = Some goal ->
  card FilterAll key (handleToggleComplete now goal st)
  = Some (with_completion goal (negb (completed goal))
            (if negb (completed goal) then Some now else None)).
Proof.
  intros Hcard. destruct (card_Some _ _ _ _ Hcard) as (_ & Hkey & _).
  unfold card in *. rewrite goals_handleToggleComplete.
  by apply find_replace_by_id.
Qed.

(** X8. Ticking the checkbox of a card twice (all goals shown) does not
    always give the record back: the flag is the old one and the other
    records are untouched, but [completedAt] is the time of the second
    click for a goal that was completed and absent for one that was not.
    The undo slot then holds the record from between the two clicks. *)
Theorem checkbox_twice (key : string) (now1 now2 : Z) (st : AppState)
    (goal : Goal) :
  card FilterAll key st = Some goal ->
  let after := click_checkbox FilterAll key now2
                 (click_checkbox FilterAll key now1 st) in
  card FilterAll key after
    = Some (with_completion goal (completed goal)
              (if completed goal then Some now2 else None)) /\
  others key (goals after) = others key (goals st) /\
  lastToggledRef after
    = Some (with_completion goal (negb (completed goal))
              (if completed goal then None else Some now1)).
Proof.
  intros Hcard after.
  destruct (card_Some _ _ _ _ Hcard) as (_ & Hkey & _).
  pose proof (card_handleToggleComplete key now1 goal st Hcard) as Hcard1.
  set (once := with_completion goal (negb (completed goal))
                 (if negb (completed goal) then Some now1 else None)) in *.
  assert (after = handleToggleComplete now2 once
                    (handleToggleComplete now1 goal st)) as ->.
  { unfold after, click_checkbox. rewrite Hcard. by rewrite Hcard1. }
  split; [|split].
  - rewrite (card_handleToggleComplete key now2 once _ Hcard1).
    unfold once. simpl. by destruct (completed goal).
  - rewrite !goals_handleToggleComplete. rewrite <- Hkey.
    etrans; [apply (others_replace_by_id once); reflexivity|].
    by apply (others_replace_by_id goal).
  - rewrite lastToggledRef_handleToggleComplete. unfold once.
    by destruct (completed goal).
Qed.

(** ** The form on untouched and integral input *)

Lemma Math_round_integer (z : Z) : Math_round (inject_Z z) = z.
Proof.
  destruct (Math_round_bounds (inject_Z z)) as [Hlo Hhi].
  destruct (Z.lt_trichotomy (Math_round (inject_Z z)) z) as [Hlt|[Heq|Hgt]].
  - apply inject_Z_succ_le in Hlt. q_lra.
  - exact Heq.
  - apply inject_Z_succ_le in Hgt. q_lra.
Qed.

Lemma Math_round_half (z : Z) : Math_round (inject_Z z + (1 # 2)) = z + 1.
Proof.
  destruct (Math_round_bounds (inject_Z z + (1 # 2))) as [Hlo Hhi].
  assert (inject_Z (z + 1) == inject_Z z + 1)%Q as Hz
    by (rewrite inject_Z_plus; reflexivity).
  destruct (Z.lt_trichotomy (Math_round (inject_Z z + (1 # 2))) (z + 1))
    as [Hlt|[Heq|Hgt]].
  - apply inject_Z_succ_le in Hlt. rewrite Hz in Hlt. q_lra.
  - exact Heq.
  - apply inject_Z_succ_le in Hgt. rewrite Hz in Hgt. q_lra.
Qed.

Lemma Qeq_bool_inject_Z_0 (z : Z) : Qeq_bool (inject_Z z) 0 = (z =? 0).
Proof.
  destruct (Z.eqb_spec z 0) as [->|Hne]; [reflexivity|].
  destruct (Qeq_bool (inject_Z z) 0) eqn:E; [|reflexivity].
  apply Qeq_bool_eq in E. unfold Qeq in E. simpl in E. lia.
Qed.

Lemma coerce_steps_integer (z : Z) :
  coerce_steps (Num (inject_Z z)) = Z.max 1 z.
Proof.
  unfold coerce_steps, or_default.
  rewrite Qeq_bool_inject_Z_0. destruct (Z.eqb_spec z 0) as [->|Hne].
  - reflexivity.
  - by rewrite Math_round_integer.
Qed.

(** X9. What the step input is coerced to: an integer [z] gives
    [max 1 z], so a valid count is stored as it is, and a value half way
    between two integers goes up, [z + 1/2] giving [max 1 (z + 1)]. *)
Theorem coerce_steps_integral (z : Z) :
  coerce_steps (Num (inject_Z z)) = Z.max 1 z /\
  coerce_steps (Num (inject_Z z + (1 # 2))) = Z.max 1 (z + 1).
Proof.
  split; [apply coerce_steps_integer|].
  unfold coerce_steps, or_default.
  destruct (Qeq_bool (inject_Z z + (1 # 2)) 0) eqn:E.
  - apply Qeq_bool_eq in E. unfold Qeq in E. simpl in E. lia.
  - by rewrite Math_round_half.
Qed.

Section FormRoundTrip.
Variable trim : string -> string.
Variable Date_toISOString : string -> outcome string.

(** X10. Opening the edit form of a goal and saving it untouched changes
    nothing in the repository, for a goal as the form itself stores goals:
    title and description already trimmed, a deadline that the date
    constructor gives back as it is, a step count of at least 1 and a
    non-empty id, in a repository with distinct ids.  The modal is closed
    afterwards. *)
Theorem edit_untouched (g : Goal) (defaultDeadline uuid : string) (now : Z)
    (st : AppState) :
  g ∈ goals st -> NoDup (id <$> goals st) ->
  id g <> "" -> deadline g <> "" -> 1 <= steps g ->
  trim (title g) = title g -> trim (description g) = description g ->
  Date_toISOString (deadline g) = Returns (deadline g) ->
  let saved := submit_form trim Date_toISOString
                 (GoalForm.init (Some g) defaultDeadline) uuid now
                 (handleEdit g st) in
  goals saved = goals st /\ isModalOpen saved = false /\ editing saved = None.
Proof.
  intros Hin Hnd Hid Hdl Hsteps Htitle Hdesc Hdate saved.
  assert (GoalForm.handleSubmit trim Date_toISOString (Some g)
            (GoalForm.init (Some g) defaultDeadline) uuid now = Returns g)
    as Hsubmit.
  { destruct g as [i t d dl p s cs c ca cat]. simpl in *.
    unfold GoalForm.handleSubmit, GoalForm.isEditing. simpl.
    rewrite decide_False by exact Hdl. rewrite Hdate. cbn [obind].
    rewrite bool_decide_eq_false_2 by exact Hid. simpl.
    rewrite Htitle, Hdesc.
    rewrite coerce_steps_integer.
    by rewrite Z.max_r by lia. }
  assert (saved = handleSave g (handleEdit g st)) as ->.
  { unfold saved, submit_form.
    change (editing (handleEdit g st)) with (Some g). by rewrite Hsubmit. }
  split; [|done]. rewrite goals_handleSave.
  change (goals (handleEdit g st)) with (goals st).
  rewrite (proj2 (existsb_id_true (goals st) (id g))) by eauto.
  by apply replace_by_id_self.
Qed.
End FormRoundTrip.

(** ** The derived view for every filter and sort key *)

Lemma filter_passes_all (l : list Goal) : List.filter (passes FilterAll) l = l.
Proof. induction l as [|g l IH]; simpl; [done|]. by rewrite IH. Qed.

Lemma List_filter_length_le {A} (f : A -> bool) (l : list A) :
  (length (List.filter f l) <= length l)%nat.
Proof.
  induction l as [|x l IH]; simpl; [done|].
  destruct (f x); simpl; lia.
Qed.

Section ViewRuns.
Variable parseISO_getTime : string -> option Z.

(** What [filteredGoals] does to the store and what it returns. *)
Lemma filteredGoals_runs (h : gmap nat (list Goal)) (goals_ref : nat)
    (gs : list Goal) (filter : FilterKey) (sortBy : SortKey) :
  h !! goals_ref = Some gs ->
  exists view h',
    filteredGoals parseISO_getTime goals_ref filter sortBy h = Some (view, h') /\
    h' !! view = Some (sorted_copy (comparator parseISO_getTime sortBy)
                         (List.filter (passes filter) gs)) /\
    (view ∉ dom h) /\
    (forall r, r ∈ dom h -> h' !! r = h !! r).
Proof.
  intros Hgs.
  set (r1 := fresh (dom h)).
  set (h1 := <[r1 := gs]> h).
  set (r2 := fresh (dom h1)).
  assert (r1 ∉ dom h) as Hr1 by apply is_fresh.
  assert (r2 ∉ dom h1) as Hr2 by apply is_fresh.
  assert (r2 ∉ dom h) as Hr2h.
  { intros Hin. apply Hr2. unfold h1. rewrite dom_insert. set_solver. }
  assert (r2 <> r1) as Hne.
  { intros Heq. apply Hr2. unfold h1. rewrite dom_insert, Heq. set_solver. }
  assert (forall (r : nat) l l', r ∈ dom h ->
            <[r2 := l]> (<[r2 := l']> h1) !! r = h !! r) as Hframe2.
  { intros r l l' Hr. unfold h1.
    rewrite !lookup_insert_ne; [done| |congruence..]. intros <-. done. }
  assert (forall (r : nat) l, r ∈ dom h -> <[r1 := l]> h1 !! r = h !! r)
    as Hframe1.
  { intros r l Hr. unfold h1.
    rewrite !lookup_insert_ne; [done|congruence..]. }
  destruct filter.
  - exists r1, (<[r1 := sorted_copy (comparator parseISO_getTime sortBy) gs]> h1).
    rewrite filter_passes_all.
    split; [|split; [apply lookup_insert_eq|split; [done|intros r Hr; by apply Hframe1]]].
    unfold filteredGoals, Array_spread, Array_filter, Array_sort,
      bind, read, alloc, write, ret.
    rewrite Hgs. by rewrite lookup_insert_eq.
  - exists r2, (<[r2 := sorted_copy (comparator parseISO_getTime sortBy)
                          (List.filter (passes FilterActive) gs)]>
                 (<[r2 := List.filter (passes FilterActive) gs]> h1)).
    split; [|split; [apply lookup_insert_eq|split; [done|intros r Hr; by apply Hframe2]]].
    unfold filteredGoals, Array_spread, Array_filter, Array_sort,
      bind, read, alloc, write, ret.
    rewrite Hgs. rewrite lookup_insert_eq. cbv beta iota.
    by rewrite lookup_insert_eq.
  - exists r2, (<[r2 := sorted_copy (comparator parseISO_getTime sortBy)
                          (List.filter (passes FilterCompleted) gs)]>
                 (<[r2 := List.filter (passes FilterCompleted) gs]> h1)).
    split; [|split; [apply lookup_insert_eq|split; [done|intros r Hr; by apply Hframe2]]].
    unfold filteredGoals, Array_spread, Array_filter, Array_sort,
      bind, read, alloc, write, ret.
    rewrite Hgs. rewrite lookup_insert_eq. cbv beta iota.
    by rewrite lookup_insert_eq.
Qed.

(** X11. For every filter and every sort key the view is a new array and
    the computation writes to no array that was there before, the
    repository's included; the view holds each goal that passes the filter
    as often as the repository does (a permutation of the filtered
    repository) and nothing else. *)
Theorem view_is_filtered_copy (h : gmap nat (list Goal)) (goals_ref : nat)
    (gs : list Goal) (filter : FilterKey) (sortBy : SortKey) :
  h !! goals_ref = Some gs ->
  exists view h' out,
    filteredGoals parseISO_getTime goals_ref filter sortBy h = Some (view, h') /\
    h' !! view = Some out /\
    (view ∉ dom h) /\
    (forall r, r ∈ dom h -> h' !! r = h !! r) /\
    h' !! goals_ref = Some gs /\
    (out ≡ₚ List.filter (passes filter) gs) /\
    (forall g, g ∈ out <-> g ∈ gs /\ passes filter g = true) /\
    (length out <= length gs)%nat.
Proof.
  intros Hgs.
  destruct (filteredGoals_runs h goals_ref gs filter sortBy Hgs)
    as (view & h' & Hrun & Hout & Hfresh & Hframe).
  exists view, h', (sorted_copy (comparator parseISO_getTime sortBy)
                      (List.filter (passes filter) gs)).
  split; [exact Hrun|]. split; [exact Hout|]. split; [exact Hfresh|].
  split; [exact Hframe|]. split.
  { rewrite Hframe; [exact Hgs|]. apply elem_of_dom. eauto. }
  split; [apply sorted_copy_perm|]. split.
  - intros g. rewrite sorted_copy_perm.
    rewrite list_elem_of_In, filter_In, <- list_elem_of_In. done.
  - rewrite sorted_copy_perm. apply List_filter_length_le.
Qed.
End ViewRuns.

(** ** Order, stability and idempotence of the view *)

Lemma sort_insert_ext cmp cmp' x (l : list Goal) :
  (forall y, y ∈ l -> cmp x y = cmp' x y) ->
  sort_insert cmp x l = sort_insert cmp' x l.
Proof.
  induction l as [|y l IH]; intros Hext; simpl; [done|].
  rewrite (Hext y) by left. destruct (cmp' x y <=? 0); [done|].
  f_equal. apply IH. intros z Hz. apply Hext. by right.
Qed.

Lemma sorted_copy_ext cmp cmp' (l : list Goal) :
  (forall a b, a ∈ l -> b ∈ l -> cmp a b = cmp' a b) ->
  sorted_copy cmp l = sorted_copy cmp' l.
Proof.
  induction l as [|x l IH]; intros Hext; simpl; [done|].
  rewrite IH by (intros a b Ha Hb; apply Hext; by right).
  apply sort_insert_ext. intros y Hy. rewrite sorted_copy_perm in Hy.
  apply Hext; [left|by right].
Qed.

(** A sorted array is left as it is. *)
Lemma sorted_copy_of_sorted cmp (l : list Goal) :
  StronglySorted (goes_before cmp) l -> sorted_copy cmp l = l.
Proof.
  induction 1 as [|x l Hl IH Hx]; simpl; [done|].
  rewrite IH. apply sort_insert_stop.
  intros y Hy. eapply Forall_forall in Hx; eauto.
Qed.

Lemma sort_insert_stable {K} `{EqDecision K} (k : Goal -> K) cmp (v : K) x l :
  (forall a b, k a = k b -> cmp a b <= 0) ->
  filter (fun g => k g = v) (sort_insert cmp x l)
  = filter (fun g => k g = v) (x :: l).
Proof.
  intros Hk. induction l as [|y l IH]; simpl; [done|].
  destruct (cmp x y <=? 0) eqn:E; [done|]. apply Z.leb_gt in E.
  assert (k x <> k y) as Hne by (intros Heq; specialize (Hk x y Heq); lia).
  rewrite (filter_cons _ y), IH, !(filter_cons _ x), (filter_cons _ y).
  destruct (decide (k x = v)), (decide (k y = v)); congruence.
Qed.

Lemma sorted_copy_stable {K} `{EqDecision K} (k : Goal -> K) cmp (v : K) l :
  (forall a b, k a = k b -> cmp a b <= 0) ->
  filter (fun g => k g = v) (sorted_copy cmp l) = filter (fun g => k g = v) l.
Proof.
  intros Hk. induction l as [|x l IH]; simpl; [done|].
  rewrite sort_insert_stable by done.
  rewrite !(filter_cons _ x), IH. done.
Qed.

Lemma List_filter_all {A} (f : A -> bool) (l : list A) :
  (forall x, x ∈ l -> f x = true) -> List.filter f l = l.
Proof.
  induction l as [|x l IH]; intros Hall; simpl; [done|].
  rewrite (Hall x) by left. f_equal. apply IH. intros y Hy. apply Hall. by right.
Qed.

Lemma filter_active_completed (l : list Goal) :
  l ≡ₚ List.filter (passes FilterActive) l
       ++ List.filter (passes FilterCompleted) l.
Proof.
  induction l as [|g l IH]; simpl; [done|].
  destruct (completed g); simpl.
  - rewrite <- Permutation_middle. by constructor.
  - by constructor.
Qed.

Section ViewOrder.
Variable parseISO_getTime : string -> option Z.

Lemma comparator_parse_or_zero sortBy gs a b :
  comparable parseISO_getTime sortBy gs -> a ∈ gs -> b ∈ gs ->
  comparator parseISO_getTime sortBy a b = comparator (parse_or_zero parseISO_getTime) sortBy a b.
Proof.
  intros Hc Ha Hb. destruct sortBy; simpl in *; try reflexivity;
    unfold time_diff, parse_or_zero;
    destruct (Hc a Ha) as [ta ->]; destruct (Hc b Hb) as [tb ->]; done.
Qed.

Lemma comparator_parse_or_zero_consistent sortBy :
  (forall a b, 0 < comparator (parse_or_zero parseISO_getTime) sortBy a b ->
               comparator (parse_or_zero parseISO_getTime) sortBy b a <= 0) /\
  (forall a b c, comparator (parse_or_zero parseISO_getTime) sortBy a b <= 0 ->
                 comparator (parse_or_zero parseISO_getTime) sortBy b c <= 0 ->
                 comparator (parse_or_zero parseISO_getTime) sortBy a c <= 0).
Proof.
  destruct sortBy; simpl; unfold time_diff, parse_or_zero; split; intros; lia.
Qed.

Lemma goes_before_in_order sortBy a b :
  goes_before (comparator (parse_or_zero parseISO_getTime) sortBy) a b ->
  in_order parseISO_getTime sortBy a b.
Proof.
  unfold goes_before.
  destruct sortBy; simpl; unfold time_diff, parse_or_zero; try lia.
  - intros H ta tb Ha Hb. rewrite Ha, Hb in H. simpl in H. lia.
  - intros H ta tb Ha Hb. rewrite Ha, Hb in H. simpl in H. lia.
Qed.

Lemma sorted_copy_comparable sortBy gs l :
  comparable parseISO_getTime sortBy gs -> (forall g, g ∈ l -> g ∈ gs) ->
  sorted_copy (comparator parseISO_getTime sortBy) l
  = sorted_copy (comparator (parse_or_zero parseISO_getTime) sortBy) l.
Proof.
  intros Hc Hsub. apply sorted_copy_ext. intros a b Ha Hb.
  apply (comparator_parse_or_zero sortBy gs); auto.
Qed.

Lemma List_filter_elem (f : Goal -> bool) (gs : list Goal) g :
  g ∈ List.filter f gs -> g ∈ gs /\ f g = true.
Proof. rewrite list_elem_of_In, filter_In, <- list_elem_of_In. done. Qed.

(** X12. The view is sorted as its sort key says: newest first, by
    ascending or descending deadline, or by priority from high to low or
    low to high.  For the deadline keys this needs every deadline of the
    repository to parse, since the comparator reads an invalid date as a
    tie with everything. *)
Theorem view_sorted (h : gmap nat (list Goal)) (goals_ref : nat)
    (gs : list Goal) (filter : FilterKey) (sortBy : SortKey) :
  h !! goals_ref = Some gs ->
  comparable parseISO_getTime sortBy gs ->
  exists view h' out,
    filteredGoals parseISO_getTime goals_ref filter sortBy h = Some (view, h') /\
    h' !! view = Some out /\
    StronglySorted (in_order parseISO_getTime sortBy) out.
Proof.
  intros Hgs Hc.
  destruct (filteredGoals_runs parseISO_getTime h goals_ref gs filter sortBy Hgs)
    as (view & h' & Hrun & Hout & _).
  exists view, h', (sorted_copy (comparator parseISO_getTime sortBy)
                      (List.filter (passes filter) gs)).
  split; [exact Hrun|]. split; [exact Hout|].
  rewrite (sorted_copy_comparable sortBy gs)
    by (try done; intros g Hg; by apply List_filter_elem in Hg as [? _]).
  apply (StronglySorted_weaken (goes_before (comparator (parse_or_zero parseISO_getTime) sortBy))).
  - apply goes_before_in_order.
  - destruct (comparator_parse_or_zero_consistent sortBy) as [Htot Htrans].
    by apply sorted_copy_sorted.
Qed.

(** X13. The sort of the view is stable for every sort key: the goals
    that share a sort value (the creation time, the parsed deadline, the
    priority) stand in the view in the order in which they pass the filter
    in the repository.  For the deadline keys this is for repositories
    whose deadlines all parse, where the comparator is consistent. *)
Theorem view_stable (h : gmap nat (list Goal)) (goals_ref : nat)
    (gs : list Goal) (filter : FilterKey) (sortBy : SortKey) (v : option Z) :
  h !! goals_ref = Some gs ->
  comparable parseISO_getTime sortBy gs ->
  exists view h' out,
    filteredGoals parseISO_getTime goals_ref filter sortBy h = Some (view, h') /\
    h' !! view = Some out /\
    base.filter (fun g => sort_value parseISO_getTime sortBy g = v) out
    = base.filter (fun g => sort_value parseISO_getTime sortBy g = v)
        (List.filter (passes filter) gs).
Proof.
  intros Hgs _.
  destruct (filteredGoals_runs parseISO_getTime h goals_ref gs filter sortBy Hgs)
    as (view & h' & Hrun & Hout & _).
  exists view, h', (sorted_copy (comparator parseISO_getTime sortBy)
                      (List.filter (passes filter) gs)).
  split; [exact Hrun|]. split; [exact Hout|].
  apply sorted_copy_stable. intros a b.
  destruct sortBy; simpl; unfold time_diff; intros Heq;
    try (injection Heq as Heq; lia);
    rewrite Heq; by destruct (parseISO_getTime (deadline b)); try lia.
Qed.

(** X14. Computing the view of a view changes nothing more: with the
    array of a view as the source and the same filter and sort key (the
    deadlines parsing for the deadline keys), [filteredGoals] returns a
    new array with the same sequence of goals. *)
Theorem view_of_view (h : gmap nat (list Goal)) (goals_ref : nat)
    (gs : list Goal) (filter : FilterKey) (sortBy : SortKey) :
  h !! goals_ref = Some gs ->
  comparable parseISO_getTime sortBy gs ->
  exists view h' out,
    filteredGoals parseISO_getTime goals_ref filter sortBy h = Some (view, h') /\
    h' !! view = Some out /\
    exists view2 h2,
      filteredGoals parseISO_getTime view filter sortBy h' = Some (view2, h2) /\
      h2 !! view2 = Some out /\ view2 <> view /\ h2 !! view = Some out.
Proof.
  intros Hgs Hc.
  destruct (filteredGoals_runs parseISO_getTime h goals_ref gs filter sortBy Hgs)
    as (view & h' & Hrun & Hout & _).
  set (out := sorted_copy (comparator parseISO_getTime sortBy)
                (List.filter (passes filter) gs)) in *.
  exists view, h', out. split; [exact Hrun|]. split; [exact Hout|].
  destruct (filteredGoals_runs parseISO_getTime h' view out filter sortBy Hout)
    as (view2 & h2 & Hrun2 & Hout2 & Hfresh2 & Hframe2).
  exists view2, h2. split; [exact Hrun2|].
  assert (forall g, g ∈ out -> g ∈ gs /\ passes filter g = true) as Helem.
  { intros g Hg. unfold out in Hg. rewrite sorted_copy_perm in Hg.
    by apply List_filter_elem. }
  assert (sorted_copy (comparator parseISO_getTime sortBy)
            (List.filter (passes filter) out) = out) as Hsame.
  { rewrite List_filter_all by (intros g Hg; by apply Helem).
    rewrite (sorted_copy_comparable sortBy gs)
      by (try done; intros g Hg; by apply Helem).
    apply sorted_copy_of_sorted. unfold out.
    rewrite (sorted_copy_comparable sortBy gs)
      by (try done; intros g Hg; by apply List_filter_elem in Hg as [? _]).
    destruct (comparator_parse_or_zero_consistent sortBy) as [Htot Htrans].
    by apply sorted_copy_sorted. }
  rewrite Hsame in Hout2. split; [exact Hout2|].
  assert (view ∈ dom h') as Hdom by (apply elem_of_dom; eauto).
  split; [intros ->; done|]. rewrite Hframe2 by exact Hdom. exact Hout.
Qed.

(** X15. The filters [active] and [completed] split the repository: the
    views for the two, under any sort keys, hold together exactly the
    goals of the view for [all], each as often. *)
Theorem views_partition (h : gmap nat (list Goal)) (goals_ref : nat)
    (gs : list Goal) (sort_all sort_active sort_completed : SortKey) :
  h !! goals_ref = Some gs ->
  exists v1 h1 v2 h2 v3 h3 all active done_,
    filteredGoals parseISO_getTime goals_ref FilterAll sort_all h
      = Some (v1, h1) /\ h1 !! v1 = Some all /\
    filteredGoals parseISO_getTime goals_ref FilterActive sort_active h
      = Some (v2, h2) /\ h2 !! v2 = Some active /\
    filteredGoals parseISO_getTime goals_ref FilterCompleted sort_completed h
      = Some (v3, h3) /\ h3 !! v3 = Some done_ /\
    (all ≡ₚ active ++ done_) /\ (all ≡ₚ gs) /\
    (forall g, g ∈ active -> g ∉ done_).
Proof.
  intros Hgs.
  destruct (filteredGoals_runs parseISO_getTime h goals_ref gs FilterAll
              sort_all Hgs) as (v1 & h1 & Hr1 & Ho1 & _).
  destruct (filteredGoals_runs parseISO_getTime h goals_ref gs FilterActive
              sort_active Hgs) as (v2 & h2 & Hr2 & Ho2 & _).
  destruct (filteredGoals_runs parseISO_getTime h goals_ref gs FilterCompleted
              sort_completed Hgs) as (v3 & h3 & Hr3 & Ho3 & _).
  do 9 eexists. 
  split; [exact Hr1|]. split; [exact Ho1|].
  split; [exact Hr2|]. split; [exact Ho2|].
  split; [exact Hr3|]. split; [exact Ho3|].
  rewrite !sorted_copy_perm, filter_passes_all.
  split; [apply filter_active_completed|]. split; [done|].
  intros g Ha Hd. rewrite sorted_copy_perm in Ha, Hd.
  apply List_filter_elem in Ha as [_ Ha]. apply List_filter_elem in Hd as [_ Hd].
  simpl in Ha, Hd. rewrite Hd in Ha. discriminate.
Qed.
End ViewOrder.

(** ** Summary statistics *)

Lemma length_active_completed (l : list Goal) :
  length l = (length (List.filter (passes FilterActive) l)
              + length (List.filter (passes FilterCompleted) l))%nat.
Proof.
  rewrite (filter_active_completed l) at 1. apply length_app.
Qed.

(** X16. The numbers of the summary: [pending], computed as the total
    minus the completed count, is the number of goals that are not
    completed; the three numbers are not negative and completed plus
    pending is the total. *)
Theorem Stats_counts (gs : list Goal) :
  total (Stats gs) = Z.of_nat (length gs) /\
  completed_goals (Stats gs)
    = Z.of_nat (length (List.filter (passes FilterCompleted) gs)) /\
  pending (Stats gs)
    = Z.of_nat (length (List.filter (passes FilterActive) gs)) /\
  total (Stats gs) = completed_goals (Stats gs) + pending (Stats gs) /\
  0 <= completed_goals (Stats gs) /\ 0 <= pending (Stats gs).
Proof.
  unfold Stats. cbn [total completed_goals pending].
  change (List.filter (fun g => completed g) gs)
    with (List.filter (passes FilterCompleted) gs).
  pose proof (length_active_completed gs). lia.
Qed.

Lemma replace_by_id_split target r (l : list Goal) :
  NoDup (id <$> l) -> target ∈ l ->
  exists l1 l2, l = l1 ++ target :: l2 /\
                replace_by_id target r l = l1 ++ r :: l2.
Proof.
  intros Hnd Hin. apply list_elem_of_split in Hin as (l1 & l2 & ->).
  exists l1, l2. split; [done|].
  rewrite fmap_app, fmap_cons in Hnd.
  apply NoDup_app in Hnd as (_ & Hdisj & Hnd2).
  apply NoDup_cons in Hnd2 as [Hnot _].
  unfold replace_by_id. rewrite fmap_app, fmap_cons.
  rewrite decide_True by done.
  fold (replace_by_id target r l1). fold (replace_by_id target r l2).
  rewrite !replace_by_id_absent; [done| |].
  - intros g Hg Hid. apply Hnot. rewrite <- Hid. apply list_elem_of_fmap. eauto.
  - intros g Hg Hid. apply (Hdisj (id g)).
    + apply list_elem_of_fmap. eauto.
    + rewrite Hid. left.
Qed.

(** X17. Ticking the checkbox of a goal of a repository with distinct ids
    moves one goal between the two counts of the summary: completing a
    goal adds one to the completed count and takes one from the pending
    count, uncompleting does the reverse, and the total stays. *)
Theorem Stats_after_toggle (now : Z) (goal : Goal) (st : AppState) :
  goal ∈ goals st -> NoDup (id <$> goals st) ->
  let before := Stats (goals st) in
  let after := Stats (goals (handleToggleComplete now goal st)) in
  total after = total before /\
  completed_goals after
    = completed_goals before + (if completed goal then -1 else 1) /\
  pending after = pending before + (if completed goal then 1 else -1).
Proof.
  intros Hin Hnd. cbv zeta. rewrite goals_handleToggleComplete.
  destruct (replace_by_id_split goal
              (with_completion goal (negb (completed goal))
                 (if negb (completed goal) then Some now else None))
              (goals st) Hnd Hin) as (l1 & l2 & -> & ->).
  unfold Stats. cbn [total completed_goals pending].
  rewrite !List.filter_app, !length_app. simpl.
  destruct (completed goal); simpl; rewrite ?length_app; simpl; lia.
Qed.

Lemma Stats_after_toggle_witness :
  Stats (goals (handleToggleComplete 2000 sample_goal sample_state))
  = mkStats 2 2 0.
Proof.
  destruct (Stats_after_toggle 2000 sample_goal sample_state)
    as (Ht & Hc & Hp).
  - left.
  - apply sample_state_ids.
  - destruct (Stats (goals (handleToggleComplete 2000 sample_goal sample_state)))
      as [t c p]. simpl in Ht, Hc, Hp. subst. reflexivity.
Defined.

(** ** Theme *)

Lemma dark_class_removed (classes : gset string) :
  "dark" ∉ classes ∖ {["dark"]}.
Proof. intros H. apply elem_of_difference in H as [_ H]. apply H. by apply elem_of_singleton. Qed.

Lemma dark_class_added (classes : gset string) : "dark" ∈ classes ∪ {["dark"]}.
Proof. apply elem_of_union. right. by apply elem_of_singleton. Qed.

Section ThemeProperties.
Variable accepts : Storage -> string -> string -> bool.

(** X18. What a reload makes of the theme.  After the effect has run for a
    theme, the initialiser gives that theme back, through the storage when
    the write went through and through the class of the document when the
    storage cannot be read; with one exception: when the storage can be
    read but refused the write while it holds the name of the other theme,
    the stale entry wins. *)
Theorem theme_after_effect (theme : useTheme.Theme) (b : useTheme.Browser) :
  useTheme.initial (Some (useTheme.effect accepts theme b)) =
  if accessible (useTheme.localStorage b)
     && negb (accepts (useTheme.localStorage b) useTheme.THEME_KEY
                (useTheme.name theme))
     && bool_decide (items (useTheme.localStorage b) !! useTheme.THEME_KEY
                     = Some (useTheme.name (useTheme.toggle theme)))
  then useTheme.toggle theme
  else theme.
Proof.
  destruct b as [[acc its] classes].
  unfold useTheme.effect, localStorage_setItem. simpl.
  destruct acc; simpl.
  - destruct (accepts _ _ _) eqn:Hacc; simpl.
    + unfold useTheme.initial, useTheme.stored_theme, localStorage_getItem.
      simpl. rewrite lookup_insert_eq. by destruct theme.
    + unfold useTheme.initial, useTheme.stored_theme, localStorage_getItem.
      simpl. destruct (its !! useTheme.THEME_KEY) as [s|] eqn:Hs; simpl.
      * destruct (decide (s = "light")) as [->|Hl];
          [|destruct (decide (s = "dark")) as [->|Hd]].
        -- by destruct theme.
        -- by destruct theme.
        -- rewrite bool_decide_eq_false_2
             by (intros [= ->]; by destruct theme).
           destruct theme.
           ++ rewrite decide_False by apply dark_class_removed. done.
           ++ rewrite decide_True by apply dark_class_added. done.
      * destruct theme.
        -- rewrite decide_False by apply dark_class_removed. done.
        -- rewrite decide_True by apply dark_class_added. done.
  - unfold useTheme.initial, useTheme.stored_theme, localStorage_getItem.
    simpl. destruct theme.
    + rewrite decide_False by apply dark_class_removed. done.
    + rewrite decide_True by apply dark_class_added. done.
Qed.
End ThemeProperties.

(** ** Saving the repository *)

Lemma priority_name_inj p1 p2 : priority_name p1 = priority_name p2 -> p1 = p2.
Proof. destruct p1, p2; simpl; intros H; try reflexivity; discriminate H. Qed.

(** X19. The JSON value of a goal determines the goal: two goals that
    [saveGoals] serialises to the same value are equal field for field,
    the absent [completedAt] included, so saving loses nothing of the
    repository. *)
Theorem to_json_inj (g1 g2 : Goal) : to_json g1 = to_json g2 -> g1 = g2.
Proof.
  destruct g1 as [i1 t1 d1 dl1 p1 s1 cs1 c1 ca1 cat1],
           g2 as [i2 t2 d2 dl2 p2 s2 cs2 c2 ca2 cat2].
  unfold to_json. simpl. intros H.
  injection H as Hi Ht Hd Hdl Hp Hs Hcs Hc Hca Hcat.
  apply priority_name_inj in Hp. subst.
  f_equal. destruct cat1, cat2; simpl in Hcat; try discriminate Hcat.
  - by injection Hcat as ->.
  - done.
Qed.

Lemma to_json_inj_witness : with_completedSteps sample_goal 4 = sample_goal.
Proof.
  apply (to_json_inj (with_completedSteps sample_goal 4) sample_goal).
  reflexivity.
Defined.

Lemma storage_keys_differ : useTheme.THEME_KEY <> STORAGE_KEY.
Proof. discriminate. Qed.

Section SaveProperties.
Variable accepts : Storage -> string -> string -> bool.
Variable JSON_stringify : json -> string.
Variable JSON_parse : string -> outcome json.

(** X20. Saving and loading give the repository back.  When the storage
    can be used and takes the entry, and [JSON.parse] undoes
    [JSON.stringify] on the array of the goals (whose text is not empty),
    [loadGoals] after [saveGoals] returns the JSON values of the goals, in
    order, and no other entry of the storage has changed. *)
Theorem save_then_load (gs : list Goal) (localStorage : Storage) :
  accessible localStorage = true ->
  accepts localStorage STORAGE_KEY
    (JSON_stringify (JArray (to_json <$> gs))) = true ->
  JSON_stringify (JArray (to_json <$> gs)) <> "" ->
  JSON_parse (JSON_stringify (JArray (to_json <$> gs)))
    = Returns (JArray (to_json <$> gs)) ->
  exists stored,
    saveGoals accepts JSON_stringify gs localStorage = Returns stored /\
    loadGoals JSON_parse stored = Returns (to_json <$> gs) /\
    forall key, key <> STORAGE_KEY ->
      items stored !! key = items localStorage !! key.
Proof.
  intros Hacc Hroom Hne Hparse.
  unfold saveGoals, localStorage_setItem. rewrite Hacc, Hroom. simpl.
  eexists. split; [reflexivity|]. split.
  - rewrite loadGoals_cases. unfold localStorage_getItem. simpl.
    rewrite lookup_insert_eq. rewrite decide_False by exact Hne.
    by rewrite Hparse.
  - intros key Hkey. simpl. by rewrite lookup_insert_ne.
Qed.

(** X21. Writes never throw and never reach the other entry.  [saveGoals]
    always returns; when the storage refuses the write it is left as it
    was; the theme entry is never touched by it.  The effect of the theme
    in turn leaves the goals entry alone, so [loadGoals] reads the same
    before and after it. *)
Theorem writes_are_contained (gs : list Goal) (theme : useTheme.Theme)
    (b : useTheme.Browser) :
  (exists stored,
     saveGoals accepts JSON_stringify gs (useTheme.localStorage b)
       = Returns stored /\
     (accessible (useTheme.localStorage b)
      && accepts (useTheme.localStorage b) STORAGE_KEY
           (JSON_stringify (JArray (to_json <$> gs))) = false ->
      stored = useTheme.localStorage b) /\
     accessible stored = accessible (useTheme.localStorage b) /\
     useTheme.stored_theme (useTheme.mkBrowser stored (useTheme.classList b))
       = useTheme.stored_theme b) /\
  loadGoals JSON_parse (useTheme.localStorage (useTheme.effect accepts theme b))
    = loadGoals JSON_parse (useTheme.localStorage b).
Proof.
  destruct b as [[acc its] classes]. simpl. split.
  - unfold saveGoals, localStorage_setItem. simpl.
    destruct acc; simpl; [|eexists; done].
    destruct (accepts _ _ _); simpl; [|eexists; done].
    eexists. split; [reflexivity|]. split; [discriminate|]. split; [done|].
    unfold useTheme.stored_theme, localStorage_getItem. simpl.
    by rewrite lookup_insert_ne by (apply not_eq_sym, storage_keys_differ).
  - unfold useTheme.effect, localStorage_setItem. simpl.
    destruct acc; simpl; [|done].
    destruct (accepts _ _ _); simpl; [|done].
    rewrite !loadGoals_cases. unfold localStorage_getItem. simpl.
    by rewrite lookup_insert_ne by apply storage_keys_differ.
Qed.
End SaveProperties.

(** ** The motivation panel *)

Lemma QuoteCard_length : Z.of_nat (length QuoteCard.quotes) = 8.
Proof. reflexivity. Qed.

Lemma QuoteCard_shown_valid (i : Z) :
  0 <= i < 8 -> is_Some (QuoteCard.shown i).
Proof.
  intros Hi. assert (i = 0 \/ i = 1 \/ i = 2 \/ i = 3 \/ i = 4 \/ i = 5 \/
                     i = 6 \/ i = 7) as Hcases by lia.
  destruct Hcases as [->|[->|[->|[->|[->|[->|[->| ->]]]]]]]; by eexists.
Qed.

(** X22. The motivation panel always has a quote to show.  For a random
    number in [0, 1) the first index is one of the eight quotes, every
    tick of the interval keeps it so, and eight ticks bring the panel back
    to the quote it showed. *)
Theorem quote_index_valid (random : Q) (n : nat) :
  (0 <= random)%Q -> (random < 1)%Q ->
  let idx := Nat.iter n QuoteCard.tick (QuoteCard.initial random) in
  0 <= idx < 8 /\
  is_Some (QuoteCard.shown idx) /\
  Nat.iter 8 QuoteCard.tick idx = idx.
Proof.
  intros Hlo Hhi.
  assert (0 <= QuoteCard.initial random < 8) as Hinit.
  { unfold QuoteCard.initial. rewrite QuoteCard_length.
    pose proof (Qfloor_le (random * inject_Z 8)) as Hfl.
    pose proof (Qlt_floor (random * inject_Z 8)) as Hlt.
    rewrite inject_Z_plus in Hlt.
    split.
    - assert (inject_Z (-1) < inject_Z (Qfloor (random * inject_Z 8)))%Q as H
        by (change (inject_Z (-1)) with (-1)%Q;
            change (inject_Z 8) with 8%Q in *;
            change (inject_Z 1) with 1%Q in *; q_lra).
      rewrite <- Zlt_Qlt in H. lia.
    - assert (inject_Z (Qfloor (random * inject_Z 8)) < inject_Z 8)%Q as H
        by (change (inject_Z 8) with 8%Q in *; q_lra).
      rewrite <- Zlt_Qlt in H. lia. }
  assert (forall i, 0 <= QuoteCard.tick i < 8) as Htick.
  { intros i. unfold QuoteCard.tick. rewrite QuoteCard_length.
    apply Z.mod_pos_bound. lia. }
  cbv zeta.
  assert (0 <= Nat.iter n QuoteCard.tick (QuoteCard.initial random) < 8) as Hn.
  { destruct n as [|n]; [exact Hinit|]. simpl. apply Htick. }
  split; [exact Hn|]. split; [by apply QuoteCard_shown_valid|].
  set (idx := Nat.iter n QuoteCard.tick (QuoteCard.initial random)) in *.
  assert (idx = 0 \/ idx = 1 \/ idx = 2 \/ idx = 3 \/ idx = 4 \/ idx = 5 \/
          idx = 6 \/ idx = 7) as Hcases by lia.
  destruct Hcases as [->|[->|[->|[->|[->|[->|[->| ->]]]]]]]; reflexivity.
Qed.

(** ** The properties at work on the sample data *)

Lemma sample_board_ids : NoDup (id <$> goals sample_board).
Proof.
  simpl. apply NoDup_cons. split.
  - intros H. apply list_elem_of_singleton in H. discriminate.
  - apply NoDup_singleton.
Qed.

Lemma steps_bound_run_witness :
  Forall steps_ok
    (goals (run sample_trim sample_toISOString
              [ClickEdit sample_goal; SubmitForm sample_raise "g3" 2000]
              sample_state)).
Proof.
  apply (steps_bound_run sample_trim sample_toISOString).
  - split; [repeat constructor; simpl; lia|]. intros last [=].
  - reflexivity.
  - split; [left|]. split; [exact I|].
    split; [reflexivity|]. split; [|exact I].
    vm_compute. intros H. discriminate H.
Defined.

Lemma single_countdown_witness :
  (length (timers (run sample_trim sample_toISOString
                     [ClickToggle 2100 sample_done; Wait 1000;
                      ClickToggle 3200 sample_goal]
                     (initial_state [sample_goal; sample_done]))) <= 1)%nat.
Proof.
  refine (proj1 (single_countdown sample_trim sample_toISOString
                   [ClickToggle 2100 sample_done; Wait 1000;
                    ClickToggle 3200 sample_goal]
                   [sample_goal; sample_done] _)).
  split; [right; left|]. split; [exact I|].
  split; [simpl; lia|]. split; [exact I|].
  split; [left|]. split; exact I.
Defined.

Lemma notification_closes_witness :
  undoOpen (advance 5000
              (run sample_trim sample_toISOString
                 [ClickToggle 2100 sample_done; Wait 1000]
                 (initial_state [sample_goal; sample_done]))) = false.
Proof.
  refine (proj1 (notification_closes sample_trim sample_toISOString
                   [ClickToggle 2100 sample_done; Wait 1000]
                   [sample_goal; sample_done] _)).
  split; [right; left|]. split; [exact I|].
  split; [simpl; lia|]. split; exact I.
Defined.

Lemma step_forward_back_witness :
  click_step_back FilterAll "g7" (click_step_forward FilterAll "g7" sample_board)
  = sample_board.
Proof.
  refine (proj1 (step_forward_back FilterAll "g7" sample_board sample_started
                   _ sample_board_ids _ _ _) _).
  - reflexivity.
  - reflexivity.
  - reflexivity.
  - unfold safe_integer. simpl. lia.
  - simpl. lia.
Defined.

Lemma steps_forward_saturate_witness :
  card FilterAll "g7" (Nat.iter 5 (click_step_forward FilterAll "g7") sample_board)
  = Some (with_completedSteps sample_started 4).
Proof.
  refine (proj1 (steps_forward_saturate FilterAll "g7" sample_board
                   sample_started 5 _ _ _ _ _ _)).
  - reflexivity.
  - reflexivity.
  - reflexivity.
  - simpl. lia.
  - unfold safe_integer. simpl. lia.
  - unfold safe_integer. simpl. lia.
Defined.

Lemma checkbox_twice_witness :
  card FilterAll "g2"
    (click_checkbox FilterAll "g2" 3000
       (click_checkbox FilterAll "g2" 2000 sample_state))
  = Some (with_completion sample_done true (Some 3000)).
Proof.
  refine (proj1 (checkbox_twice "g2" 2000 3000 sample_state sample_done _)).
  reflexivity.
Defined.

Lemma edit_untouched_witness :
  goals (submit_form sample_trim sample_toISOString
           (GoalForm.init (Some sample_goal) "2026-01-08") "g3" 2000
           (handleEdit sample_goal sample_state))
  = goals sample_state.
Proof.
  refine (proj1 (edit_untouched sample_trim sample_toISOString sample_goal
                   "2026-01-08" "g3" 2000 sample_state
                   _ sample_state_ids _ _ _ _ _ _)).
  - left.
  - discriminate.
  - discriminate.
  - simpl. lia.
  - reflexivity.
  - reflexivity.
  - reflexivity.
Defined.

Lemma view_is_filtered_copy_witness :
  exists view h' out,
    filteredGoals sample_getTime 0%nat FilterActive DeadlineDesc sample_store
      = Some (view, h') /\
    h' !! view = Some out /\ h' !! 0%nat = Some sample_repository /\
    (out ≡ₚ [sample_goal]).
Proof.
  destruct (view_is_filtered_copy sample_getTime sample_store 0%nat
              sample_repository FilterActive DeadlineDesc)
    as (view & h' & out & H1 & H2 & _ & _ & H5 & H6 & _).
  - reflexivity.
  - exists view, h', out. done.
Defined.

Lemma view_sorted_witness :
  exists view h' out,
    filteredGoals sample_getTime 0%nat FilterAll DeadlineAsc sample_store
      = Some (view, h') /\
    h' !! view = Some out /\
    StronglySorted (in_order sample_getTime DeadlineAsc) out.
Proof.
  apply (view_sorted sample_getTime sample_store 0%nat sample_repository).
  - reflexivity.
  - intros g _. by eexists.
Defined.

Lemma view_stable_witness :
  exists view h' out,
    filteredGoals sample_getTime 0%nat FilterCompleted DeadlineDesc sample_store
      = Some (view, h') /\
    h' !! view = Some out /\
    base.filter (fun g => sort_value sample_getTime DeadlineDesc g = Some 24) out
    = [sample_low; sample_high; sample_medium; sample_done].
Proof.
  destruct (view_stable sample_getTime sample_store 0%nat sample_repository
              FilterCompleted DeadlineDesc (Some 24))
    as (view & h' & out & H1 & H2 & H3).
  - reflexivity.
  - intros g _. by eexists.
  - exists view, h', out. split; [exact H1|]. split; [exact H2|].
    rewrite H3. reflexivity.
Defined.

Lemma view_of_view_witness :
  exists view h' out,
    filteredGoals sample_getTime 0%nat FilterCompleted CreatedDesc sample_store
      = Some (view, h') /\
    h' !! view = Some out /\
    exists view2 h2,
      filteredGoals sample_getTime view FilterCompleted CreatedDesc h'
        = Some (view2, h2) /\
      h2 !! view2 = Some out /\ view2 <> view /\ h2 !! view = Some out.
Proof.
  apply (view_of_view sample_getTime sample_store 0%nat sample_repository).
  - reflexivity.
  - exact I.
Defined.

Lemma views_partition_witness :
  exists v1 h1 v2 h2 v3 h3 all active done_,
    filteredGoals sample_getTime 0%nat FilterAll CreatedDesc sample_store
      = Some (v1, h1) /\ h1 !! v1 = Some all /\
    filteredGoals sample_getTime 0%nat FilterActive PriorityDesc sample_store
      = Some (v2, h2) /\ h2 !! v2 = Some active /\
    filteredGoals sample_getTime 0%nat FilterCompleted DeadlineAsc sample_store
      = Some (v3, h3) /\ h3 !! v3 = Some done_ /\
    (all ≡ₚ active ++ done_) /\ (all ≡ₚ sample_repository) /\
    (forall g, g ∈ active -> g ∉ done_).
Proof.
  apply (views_partition sample_getTime sample_store 0%nat sample_repository).
  reflexivity.
Defined.

Lemma save_then_load_witness :
  exists stored,
    saveGoals sample_accepts sample_stringify (goals sample_state)
      (mkStorage true ∅) = Returns stored /\
    loadGoals sample_parse_saved stored
      = Returns (to_json <$> goals sample_state) /\
    forall key, key <> STORAGE_KEY ->
      items stored !! key = items (mkStorage true ∅) !! key.
Proof.
  apply (save_then_load sample_accepts sample_stringify sample_parse_saved).
  - reflexivity.
  - reflexivity.
  - discriminate.
  - reflexivity.
Defined.

Lemma quote_index_valid_witness :
  0 <= Nat.iter 3 QuoteCard.tick (QuoteCard.initial (1 # 2)) < 8.
Proof.
  refine (proj1 (quote_index_valid (1 # 2) 3 _ _)).
  - unfold Qle. simpl. lia.
  - unfold Qlt. simpl. lia.
Defined.

(** ** Create and delete *)

Section CreateDelete.
Variable trim : string -> string.
Variable Date_toISOString : string -> outcome string.

(** X23. Deleting a goal right after creating it gives the repository
    back: when the form of a new goal is submitted with an id that no
    record has, and the new goal is then deleted with the confirmation
    given, the repository is the one from before the creation. *)
Theorem create_then_delete (form : GoalForm.State) (uuid : string) (now : Z)
    (st : AppState) (base : Goal) :
  GoalForm.handleSubmit trim Date_toISOString None form uuid now = Returns base ->
  (forall g, g ∈ goals st -> id g <> uuid) ->
  let created := submit_form trim Date_toISOString form uuid now (handleAddNew st) in
  goals created = base :: goals st /\
  goals (handleDelete true base created) = goals st.
Proof.
  intros Hsubmit Hfresh created.
  assert (id base = uuid) as Hid.
  { unfold GoalForm.handleSubmit in Hsubmit.
    destruct (Date_toISOString (GoalForm.deadline form)); [|discriminate].
    cbn [obind] in Hsubmit. by injection Hsubmit as <-. }
  assert (goals created = base :: goals st) as Hcreated.
  { unfold created, submit_form.
    change (editing (handleAddNew st)) with (@None Goal). rewrite Hsubmit.
    rewrite goals_handleSave. change (goals (handleAddNew st)) with (goals st).
    by rewrite (proj2 (existsb_id_false (goals st) (id base)))
      by (rewrite Hid; exact Hfresh). }
  split; [exact Hcreated|].
  unfold handleDelete. cbn [negb]. cbv iota.
  change (goals (setGoals ?f ?s)) with (f (goals s)). rewrite Hcreated.
  rewrite filter_cons_False by tauto.
  apply filter_all. intros g Hg. rewrite Hid. by apply Hfresh.
Qed.
End CreateDelete.

Lemma create_then_delete_witness :
  goals (handleDelete true
           (mkGoal "g3" "Learn to swim" "" "2026-01-08" Medium 1 0 false 2000 None)
           (submit_form sample_trim sample_toISOString sample_new "g3" 2000
              (handleAddNew sample_state)))
  = goals sample_state.
Proof.
  refine (proj2 (create_then_delete sample_trim sample_toISOString sample_new
                   "g3" 2000 sample_state _ _ _)).
  - reflexivity.
  - intros g Hg. simpl in Hg.
    apply elem_of_cons in Hg as [->|Hg]; [discriminate|].
    apply list_elem_of_singleton in Hg as ->. discriminate.
Defined.
